(* Verification model of the retry / adaptive-timeout layer of
   jobkroea-updater (src/utils/adaptiveTimeout.ts, src/utils/retry.ts,
   src/notify.ts, src/services/jobkorea.ts).

   JavaScript numbers are modelled exactly: durations and timeouts that are
   integral in the code as Z, the derived averages and rates as Q.  The
   floating-point rounding of doubles is not modelled. *)

From Stdlib Require Import ZArith QArith Qround List Ascii String Bool Lia.
Import ListNotations.
Open Scope Z_scope.

(* ------------------------------------------------------------------------ *)
(** * AdaptiveTimeoutManager (src/utils/adaptiveTimeout.ts) *)

Module AdaptiveTimeout.

(** [interface TimeoutMetrics] *)
Record TimeoutMetrics := {
  averageResponseTime : Q;
  successRate : Q;
  lastMeasurements : list Z;
  measurementCount : Z
}.

(** [interface AdaptiveTimeoutConfig] *)
Record AdaptiveTimeoutConfig := {
  baseTimeout : Z;
  minTimeout : Z;
  maxTimeout : Z;
  measurementWindow : Z;
  successThreshold : Q;
  failureMultiplier : Q;
  successMultiplier : Q
}.

(** The private [config] field: it has no setter in the class. *)
Definition config : AdaptiveTimeoutConfig := {|
  baseTimeout := 15000;
  minTimeout := 5000;
  maxTimeout := 30000;
  measurementWindow := 10;
  successThreshold := 8 # 10;
  failureMultiplier := 3 # 2;
  successMultiplier := 9 # 10
|}.

(** The initial value of the private [metrics] field (also [resetMetrics]). *)
Definition initialMetrics : TimeoutMetrics := {|
  averageResponseTime := 0;
  successRate := 1;
  lastMeasurements := [];
  measurementCount := 0
|}.

(** [operationType: 'navigation' | 'element' | 'popup' | 'network'] *)
Inductive OperationType := navigation | element | popup | network.

Definition sum_Z (l : list Z) : Z := fold_left (fun s t => s + t) l 0.

(** [Array.prototype.shift]: drop the oldest element. *)
Definition shift (l : list Z) : list Z := tl l.

(** [recordMeasurement(responseTime, success)]: the manager is a singleton,
    so its whole state is the one [metrics] record. *)
Definition recordMeasurement (m : TimeoutMetrics) (responseTime : Z)
    (success : bool) : TimeoutMetrics :=
  let '(lm, avg) :=
    if success then
      let pushed := lastMeasurements m ++ [responseTime] in
      let lm := if Z.of_nat (List.length pushed) >? measurementWindow config
                then shift pushed else pushed in
      (lm, (inject_Z (sum_Z lm) / inject_Z (Z.of_nat (List.length lm)))%Q)
    else (lastMeasurements m, averageResponseTime m) in
  let count := measurementCount m + 1 in
  let recentWindow := Z.min (measurementWindow config) count in
  let successCount := Z.of_nat (List.length lm) in
  {| averageResponseTime := avg;
     successRate := (inject_Z successCount / inject_Z recentWindow)%Q;
     lastMeasurements := lm;
     measurementCount := count |}.

(** The per-type [switch] of [getAdaptiveTimeout]; the [default] branch
    ([config.baseTimeout]) is unreachable for the declared union type. *)
Definition typeBaseTimeout (t : OperationType) : Z :=
  match t with
  | navigation => 20000
  | element => 15000
  | popup => 10000
  | network => 8000
  end.

(** [Math.round]: nearest integer, halves rounded up. *)
Definition Math_round (x : Q) : Z := Qfloor (x + (1 # 2))%Q.

Definition Qmax (a b : Q) : Q := if Qlt_le_dec a b then b else a.
Definition Qmin (a b : Q) : Q := if Qlt_le_dec b a then b else a.

(** [getAdaptiveTimeout(operationType)]. *)
Definition getAdaptiveTimeout (m : TimeoutMetrics) (t : OperationType) : Z :=
  let base := typeBaseTimeout t in
  if measurementCount m <? 3 then base
  else
    let a0 := inject_Z base in
    let a1 :=
      if Qlt_le_dec (successRate m) (successThreshold config)
      then (a0 * failureMultiplier config)%Q
      else if Qlt_le_dec (95 # 100) (successRate m)
      then (a0 * successMultiplier config)%Q
      else a0 in
    let a2 :=
      if Qlt_le_dec 0 (averageResponseTime m)
      then Qmax a1 (averageResponseTime m * (5 # 2))%Q
      else a1 in
    let a3 := Qmax (inject_Z (minTimeout config))
                   (Qmin (inject_Z (maxTimeout config)) a2) in
    Math_round a3.

(** [withTimeoutMeasurement(operation, operationType, timeoutMs)]: the
    bookkeeping done in its [finally] block.  The operation type is used only
    to pick the timeout; the measurement goes to the shared [metrics]. *)
Definition recordForOperation (m : TimeoutMetrics) (t : OperationType)
    (responseTime : Z) (success : bool) : TimeoutMetrics :=
  recordMeasurement m responseTime success.

(** A run of [recordMeasurement] calls from a given state. *)
Definition recordAll (m : TimeoutMetrics) (obs : list (Z * bool)) : TimeoutMetrics :=
  fold_left (fun s o => recordMeasurement s (fst o) (snd o)) obs m.

(** The durations of the successful outcomes of a run, oldest first. *)
Definition successDurations (obs : list (Z * bool)) : list Z :=
  map fst (filter snd obs).

(** The last [n] elements of a list. *)
Definition lastn {A} (n : nat) (l : list A) : list A :=
  skipn (List.length l - n) l.

End AdaptiveTimeout.

(* ------------------------------------------------------------------------ *)
(** * withRetry / withBrowserRestart (src/utils/retry.ts) *)

Module Retry.

(** An [Error] object: either one the action created (identified by [id]) or
    one built here with [new Error(message)]. *)
Inductive jsError :=
| OriginalError (id : nat) (message : string)
| NewError (message : string)
| ReplaceTypeError.

(** A rejection reason / thrown value: an [Error] instance, or any other
    value, given by its [String(...)] rendering. *)
Inductive reason :=
| RError (e : jsError)
| RValue (repr : string).

(** [error instanceof Error ? error : new Error(String(error))] *)
Definition toError (r : reason) : jsError :=
  match r with
  | RError e => e
  | RValue s => NewError s
  end.

(** How the [attempt]-th [await fn()] settles. *)
Inductive settle (A : Type) :=
| Resolve (v : A)
| Reject (r : reason).
Arguments Resolve {A} v.
Arguments Reject {A} r.

(** How the returned promise settles. *)
Inductive outcome (A : Type) :=
| Returned (v : A)
| Thrown (r : reason).
Arguments Returned {A} v.
Arguments Thrown {A} r.

(** Observable effects, in order: an invocation of [fn] (with its attempt
    number), a [setTimeout] delay, a call of [browserRestartFn], and the
    [Logger.error] of its catch block. *)
Inductive event :=
| EInvoke (attempt : Z)
| ESleep (ms : Z)
| ERestart (attempt : Z)
| ERestartFailed (attempt : Z).

(** [RetryOptions] with the defaults of the destructuring already applied. *)
Record RetryOptions := {
  maxRetries : Z;
  baseDelay : Z;
  maxDelay : Z;
  backoffMultiplier : Z
}.

(** [configManager.getRetryConfig()] (src/config/index.ts), also exported as
    [RETRY_CONFIG] (src/constants.ts). *)
Record RetryConfig := {
  maxOperationRetries : Z;
  maxProcessRetries : Z;
  cfgBaseDelay : Z;
  cfgMaxDelay : Z;
  cfgBackoffMultiplier : Z
}.

Definition retryConfig : RetryConfig := {|
  maxOperationRetries := 3;
  maxProcessRetries := 3;
  cfgBaseDelay := 2000;
  cfgMaxDelay := 10000;
  cfgBackoffMultiplier := 2
|}.

Definition noAttemptsError : jsError := NewError "No attempts made".

Section WithRetry.
Context {A : Type} (fn : Z -> settle A) (o : RetryOptions).

(** The [for (let attempt = ...; attempt <= maxRetries; attempt++)] loop;
    [fuel] bounds the remaining iterations. *)
Fixpoint withRetry_loop (fuel : nat) (attempt : Z) (lastError : jsError)
    : list event * outcome A :=
  match fuel with
  | O => ([], Thrown (RError lastError))
  | S fuel' =>
      if attempt <=? maxRetries o then
        match fn attempt with
        | Resolve v => ([EInvoke attempt], Returned v)
        | Reject r =>
            let lastError := toError r in
            if attempt =? maxRetries o then
              ([EInvoke attempt], Thrown (RError lastError))
            else
              let delay := Z.min (baseDelay o * backoffMultiplier o ^ (attempt - 1))
                                 (maxDelay o) in
              let '(tr, res) := withRetry_loop fuel' (attempt + 1) lastError in
              (EInvoke attempt :: ESleep delay :: tr, res)
        end
      else ([], Thrown (RError lastError))
  end.

Definition withRetry : list event * outcome A :=
  withRetry_loop (Z.to_nat (maxRetries o)) 1 noAttemptsError.

End WithRetry.

(** A value [browserRestartFn] rejects with, as far as
    [Logger.error("...", restartError as Error)] reads it: [createLogEntry]
    skips a falsy [error] and otherwise masks [error.message]. *)
Inductive restartError :=
| RestartErr (e : jsError)           (* an [Error] instance: [message] is a string *)
| RestartFalsy                       (* [undefined], [null], [false], [0], [""], [NaN] *)
| RestartMessage (message : string)  (* a non-[Error] object whose [message] is a string
                                        and whose [stack] is a string or falsy *)
| RestartNoMessage (repr : string).  (* any other truthy value, e.g. a non-empty string or a
                                        number: its [message] is [undefined] *)

(** How the [attempt]-th [await browserRestartFn()] settles. *)
Inductive restartResult :=
| RestartOk
| RestartFail (e : restartError).

(** [loggingConfig.enableSensitiveDataMasking] and
    [securityConfig.maskSensitiveInfo]: both [true] in [defaultConfig]; no
    environment variable sets them and [updateConfig] has no caller.  The
    level ['error'] passes [shouldLog] under every [logLevel]. *)
Definition sensitiveDataMasking : bool := true.

(** [Logger.error(message, error)] on a caught value: [Some e] when it throws
    [e] instead of logging.  With masking on, [maskSensitiveData(error.message)]
    calls [.replace] on [undefined], a [TypeError]. *)
Definition loggerErrorThrows (error : restartError) : option jsError :=
  match error with
  | RestartNoMessage _ => if sensitiveDataMasking then Some ReplaceTypeError else None
  | _ => None
  end.

(** [try { await browserRestartFn(); } catch (restartError) { Logger.error(...); }]
    after the failed attempt [attempt]: its events, and [Some e] when the
    [catch] block itself throws [e]. *)
Definition restartStep (attempt : Z) (res : restartResult) : list event * option jsError :=
  match res with
  | RestartOk => ([ERestart attempt], None)
  | RestartFail e =>
      match loggerErrorThrows e with
      | Some te => ([ERestart attempt], Some te)
      | None => ([ERestart attempt; ERestartFailed attempt], None)
      end
  end.

Section WithBrowserRestart.
Context {A : Type} (fn : Z -> settle A) (browserRestartFn : Z -> restartResult)
        (maxRetries : Z).

(** An exception thrown in the [catch (error)] block leaves the loop and
    rejects the returned promise. *)
Fixpoint withBrowserRestart_loop (fuel : nat) (attempt : Z) (lastError : jsError)
    : list event * outcome A :=
  match fuel with
  | O => ([], Thrown (RError lastError))
  | S fuel' =>
      if attempt <=? maxRetries then
        match fn attempt with
        | Resolve v => ([EInvoke attempt], Returned v)
        | Reject r =>
            let lastError := toError r in
            if attempt =? maxRetries then
              ([EInvoke attempt], Thrown (RError lastError))
            else
              let '(restartLog, escaped) := restartStep attempt (browserRestartFn attempt) in
              match escaped with
              | Some te => (EInvoke attempt :: restartLog, Thrown (RError te))
              | None =>
                  let '(tr, res) := withBrowserRestart_loop fuel' (attempt + 1) lastError in
                  (EInvoke attempt :: restartLog ++ ESleep (cfgBaseDelay retryConfig) :: tr, res)
              end
        end
      else ([], Thrown (RError lastError))
  end.

Definition withBrowserRestart : list event * outcome A :=
  withBrowserRestart_loop (Z.to_nat maxRetries) 1 noAttemptsError.

End WithBrowserRestart.

(** An explicit policy: 3 attempts, 2000ms base, x2, 10000ms cap. *)
Definition policy3 : RetryOptions := {|
  maxRetries := 3; baseDelay := 2000; maxDelay := 10000; backoffMultiplier := 2
|}.

(** Only invocations and delays of a [withBrowserRestart] trace. *)
Definition workflowEvents (tr : list event) : list event :=
  filter (fun e => match e with EInvoke _ | ESleep _ => true | _ => false end) tr.

End Retry.

(* ------------------------------------------------------------------------ *)
(** * sendTelegramMessage (src/notify.ts) *)

Module Notify.
Import Retry.

(** The fields of the fetch [Response] the function reads, with how its
    body reads settle: [bodyText] is what [await response.text()] yields
    ([None] when it rejects), [jsonBody] how [await response.json()]
    settles (the parsed value, or the rejection of a body that is not
    JSON). *)
Record Response := {
  status : Z;
  statusText : string;
  bodyText : option string;
  jsonBody : settle string
}.

(** How [await fetch(...)] settles. *)
Inductive fetchResult :=
| Fetched (resp : Response)
| FetchRejected (r : reason).

(** Decimal rendering of a non-negative integer, as in a template literal. *)
Fixpoint decimal_aux (fuel : nat) (n : Z) (acc : string) : string :=
  match fuel with
  | O => acc
  | S fuel' =>
      let acc' := String (Ascii.ascii_of_nat (48 + Z.to_nat (n mod 10))) acc in
      if n <? 10 then acc' else decimal_aux fuel' (n / 10) acc'
  end.

Definition decimal (n : Z) : string := decimal_aux 32 n "".

(** The action passed to [withRetry]: one POST and the classification of its
    response.  Both the 4xx branch and the other non-ok branch end in
    [throw error]; an ok reply settles as [response.json()] does. *)
Definition telegramAttempt (r : fetchResult) : settle string :=
  match r with
  | FetchRejected e => Reject e
  | Fetched resp =>
      if (200 <=? status resp) && (status resp <? 300) then
        jsonBody resp
      else
        let errorBody := match bodyText resp with
                         | Some t => t
                         | None => "Unknown error"%string
                         end in
        let error := NewError ("Telegram API error: " ++ decimal (status resp) ++ " "
                               ++ statusText resp ++ " - " ++ errorBody) in
        if (400 <=? status resp) && (status resp <? 500) then
          Reject (RError error)
        else
          Reject (RError error)
  end.

(** The options object: all four values from [RETRY_CONFIG]. *)
Definition telegramOptions : RetryOptions := {|
  maxRetries := maxOperationRetries retryConfig;
  baseDelay := cfgBaseDelay retryConfig;
  maxDelay := cfgMaxDelay retryConfig;
  backoffMultiplier := cfgBackoffMultiplier retryConfig
|}.

(** [sendTelegramMessage(token, chatId, message)]; [responses k] is what the
    [k]-th fetch yields. *)
Definition sendTelegramMessage (responses : Z -> fetchResult)
    : list event * outcome string :=
  withRetry (fun k => telegramAttempt (responses k)) telegramOptions.

(** The [400 Bad Request] reply of the Bot API. *)
Definition badRequest : Response := {|
  status := 400; statusText := "Bad Request"; bodyText := Some "chat not found"%string;
  jsonBody := Resolve "{}"%string
|}.

Definition serverError : Response := {|
  status := 502; statusText := "Bad Gateway"; bodyText := Some ""%string;
  jsonBody := Resolve "{}"%string
|}.

End Notify.

(* ------------------------------------------------------------------------ *)
(** * ConfigValidator (src/utils/validation.ts) and isValidConfig (src/types)

    Strings are modelled as sequences of ASCII characters, for which the
    JavaScript [length] (UTF-16 code units) is the number of characters and
    [trim] / [\s] strip exactly tab, LF, VT, FF, CR and space. *)

Module Validation.
Local Open Scope string_scope.

Definition isWs (c : Ascii.ascii) : bool :=
  let n := Ascii.nat_of_ascii c in
  (Nat.eqb n 9 || Nat.eqb n 10 || Nat.eqb n 11 || Nat.eqb n 12 || Nat.eqb n 13
   || Nat.eqb n 32)%bool.

Fixpoint dropWs (l : list Ascii.ascii) : list Ascii.ascii :=
  match l with
  | [] => []
  | c :: r => if isWs c then dropWs r else l
  end.

(** [String.prototype.trim] *)
Definition trim (s : string) : string :=
  string_of_list_ascii (rev (dropWs (rev (dropWs (list_ascii_of_string s))))).

(** [/\s/.test(s)] *)
Definition hasWs (s : string) : bool := existsb isWs (list_ascii_of_string s).

(** [!s || s.trim().length === 0] *)
Definition blank (s : string) : bool :=
  (String.eqb s "" || Nat.eqb (String.length (trim s)) 0)%bool.

Definition inRange (c lo hi : nat) : bool := (Nat.leb lo c && Nat.leb c hi)%bool.
Definition isDigit (c : Ascii.ascii) : bool := inRange (Ascii.nat_of_ascii c) 48 57.
Definition isAlpha (c : Ascii.ascii) : bool :=
  (inRange (Ascii.nat_of_ascii c) 65 90 || inRange (Ascii.nat_of_ascii c) 97 122)%bool.
(** [[a-zA-Z0-9_]] *)
Definition isWordChar (c : Ascii.ascii) : bool :=
  (isAlpha c || isDigit c || Ascii.eqb c "_"%char)%bool.
(** [[A-Za-z0-9_-]] *)
Definition isTokenChar (c : Ascii.ascii) : bool :=
  (isWordChar c || Ascii.eqb c "-"%char)%bool.

(** [/^\d+$/] on a character list. *)
Definition allDigits1 (l : list Ascii.ascii) : bool :=
  (negb (Nat.eqb (List.length l) 0) && forallb isDigit l)%bool.

(** [/^\d+:[A-Za-z0-9_-]+$/]: the digit class excludes [:], so the digit
    run is the whole part before the first [:]. *)
Fixpoint tokenRegex_aux (l : list Ascii.ascii) (seenDigit : bool) : bool :=
  match l with
  | [] => false
  | c :: r =>
      if isDigit c then tokenRegex_aux r true
      else (seenDigit && Ascii.eqb c ":"%char
            && negb (Nat.eqb (List.length r) 0) && forallb isTokenChar r)%bool
  end.

Definition telegramTokenRegex (s : string) : bool :=
  tokenRegex_aux (list_ascii_of_string s) false.

(** [/^(-?\d+|@[a-zA-Z][a-zA-Z0-9_]{4,31})$/] *)
Definition telegramChatIdRegex (s : string) : bool :=
  match list_ascii_of_string s with
  | c :: r =>
      if Ascii.eqb c "-"%char then allDigits1 r
      else if Ascii.eqb c "@"%char then
        match r with
        | a :: w => (isAlpha a && Nat.leb 4 (List.length w) && Nat.leb (List.length w) 31
                     && forallb isWordChar w)%bool
        | [] => false
        end
      else allDigits1 (c :: r)
  | [] => false
  end.

Definition validateJobKoreaId (id : string) : list string :=
  if blank id then ["JobKorea ID가 비어있습니다."]
  else
    app (if Nat.ltb (String.length id) 3 then ["JobKorea ID는 최소 3자 이상이어야 합니다."] else [])
    (app (if Nat.ltb 50 (String.length id) then ["JobKorea ID는 50자를 초과할 수 없습니다."] else [])
         (if hasWs id then ["JobKorea ID에는 공백이 포함될 수 없습니다."] else [])).

Definition validateJobKoreaPassword (password : string) : list string :=
  if blank password then ["JobKorea 비밀번호가 비어있습니다."]
  else
    app (if Nat.ltb (String.length password) 4
         then ["JobKorea 비밀번호는 최소 4자 이상이어야 합니다."] else [])
        (if Nat.ltb 100 (String.length password)
         then ["JobKorea 비밀번호는 100자를 초과할 수 없습니다."] else []).

Definition validateTelegramToken (token : string) : list string :=
  if blank token then ["Telegram 봇 토큰이 비어있습니다."]
  else
    app (if negb (telegramTokenRegex token)
         then ["Telegram 봇 토큰 형식이 올바르지 않습니다. (형식: 숫자:영숫자_하이픈)"] else [])
    (app (if Nat.ltb (String.length token) 20 then ["Telegram 봇 토큰이 너무 짧습니다."] else [])
         (if Nat.ltb 100 (String.length token) then ["Telegram 봇 토큰이 너무 깁니다."] else [])).

Definition validateTelegramChatId (chatId : string) : list string :=
  if blank chatId then ["Telegram 채팅 ID가 비어있습니다."]
  else if negb (telegramChatIdRegex chatId)
  then ["Telegram 채팅 ID 형식이 올바르지 않습니다. (숫자 또는 @username)"]
  else [].

(** [interface Config] (src/types.ts) *)
Record Config := {
  jobkoreaId : string;
  jobkoreaPwd : string;
  telegramToken : string;
  telegramChatId : string
}.

Record ValidationResult := { isValid : bool; errors : list string }.

Definition validateConfig (config : Config) : ValidationResult :=
  let errors := app (validateJobKoreaId (jobkoreaId config))
                (app (validateJobKoreaPassword (jobkoreaPwd config))
                (app (validateTelegramToken (telegramToken config))
                     (validateTelegramChatId (telegramChatId config)))) in
  {| isValid := Nat.eqb (List.length errors) 0; errors := errors |}.

(** [isValidConfig] on a value already of type [Config]: its [typeof]
    checks hold, the four length checks remain. *)
Definition isValidConfig (config : Config) : bool :=
  (Nat.ltb 0 (String.length (jobkoreaId config))
   && Nat.ltb 0 (String.length (jobkoreaPwd config))
   && Nat.ltb 0 (String.length (telegramToken config))
   && Nat.ltb 0 (String.length (telegramChatId config)))%bool.

Definition requiredVars : list string :=
  ["JOBKOREA_ID"; "JOBKOREA_PWD"; "TELEGRAM_BOT_TOKEN"; "TELEGRAM_CHAT_ID"].

(** [validateEnvironmentVariables()]; [env v] is [process.env[v]]. *)
Definition validateEnvironmentVariables (env : string -> option string)
    : ValidationResult :=
  let errors :=
    flat_map (fun varName =>
      match env varName with
      | Some value => if String.eqb value "" then
                        ["환경변수 " ++ varName ++ "이 설정되지 않았습니다."] else []
      | None => ["환경변수 " ++ varName ++ "이 설정되지 않았습니다."]
      end) requiredVars in
  {| isValid := Nat.eqb (List.length errors) 0; errors := errors |}.

End Validation.

(* ------------------------------------------------------------------------ *)
(** * Logger history (src/utils/logger.ts)

    A log entry is taken as built by [createLogEntry]; its timestamp and the
    masked message text are carried as data. *)

Module Log.
Local Open Scope string_scope.

(** [type LogLevel = 'error' | 'warn' | 'info' | 'debug'] *)
Inductive LogLevel := LError | LWarn | LInfo | LDebug.

Definition LogLevel_eqb (a b : LogLevel) : bool :=
  match a, b with
  | LError, LError | LWarn, LWarn | LInfo, LInfo | LDebug, LDebug => true
  | _, _ => false
  end.

(** [levels.indexOf(level)] with [levels = ['error','warn','info','debug']] *)
Definition levelIndex (l : LogLevel) : nat :=
  match l with LError => 0 | LWarn => 1 | LInfo => 2 | LDebug => 3 end%nat.

(** [shouldLog(level)] under the configured [logLevel]. *)
Definition shouldLog (logLevel level : LogLevel) : bool :=
  Nat.leb (levelIndex level) (levelIndex logLevel).

(** [LogEntry]: [entryError] is [None] without an [error] field, and
    [Some code] with one ([code] is [undefined] unless a [JobKoreaError]). *)
Record LogEntry := {
  timestamp : string;
  level : LogLevel;
  message : string;
  entryError : option (option string)
}.

Definition maxHistorySize : nat := 1000.

(** [addToHistory(entry)] *)
Definition addToHistory (logHistory : list LogEntry) (entry : LogEntry) : list LogEntry :=
  let pushed := app logHistory [entry] in
  if Nat.ltb maxHistorySize (List.length pushed) then tl pushed else pushed.

(** The history effect of [Logger.log(level, ...)] for a built entry. *)
Definition log (logLevel : LogLevel) (logHistory : list LogEntry) (entry : LogEntry)
    : list LogEntry :=
  if shouldLog logLevel (level entry) then addToHistory logHistory entry else logHistory.

Definition logAll (logLevel : LogLevel) (h : list LogEntry) (es : list LogEntry)
    : list LogEntry :=
  fold_left (log logLevel) es h.

(** [Array.prototype.slice(start)] *)
Definition jsSliceFrom {A} (start : Z) (l : list A) : list A :=
  let len := Z.of_nat (List.length l) in
  let k := if Z.ltb start 0 then Z.max (len + start) 0 else Z.min start len in
  skipn (Z.to_nat k) l.

(** [getHistory(level?, limit?)]; a [limit] of [0] is falsy. *)
Definition getHistory (logHistory : list LogEntry) (lvl : option LogLevel)
    (limit : option Z) : list LogEntry :=
  let filtered := match lvl with
                  | Some l => filter (fun e => LogLevel_eqb (level e) l) logHistory
                  | None => logHistory
                  end in
  match limit with
  | Some n => if Z.eqb n 0 then filtered else jsSliceFrom (- n) filtered
  | None => filtered
  end.

(** [byCode[code] = (byCode[code] || 0) + 1] on an object used as a map
    (string keys keep insertion order). *)
Fixpoint bumpCode (code : string) (byCode : list (string * Z)) : list (string * Z) :=
  match byCode with
  | [] => [(code, 1)]
  | (k, n) :: rest => if String.eqb k code then (k, n + 1) :: rest
                      else (k, n) :: bumpCode code rest
  end.

Definition isErrorEntry (e : LogEntry) : bool :=
  match level e, entryError e with
  | LError, Some _ => true
  | _, _ => false
  end.

(** [getErrorStats()] *)
Definition getErrorStats (logHistory : list LogEntry) : Z * list (string * Z) :=
  let errors := filter isErrorEntry logHistory in
  let byCode := fold_left (fun acc e =>
                  match entryError e with
                  | Some (Some c) => if String.eqb c "" then acc else bumpCode c acc
                  | _ => acc
                  end) errors [] in
  (Z.of_nat (List.length errors), byCode).

End Log.

(* ------------------------------------------------------------------------ *)
(** * Retry settings from the environment (src/config/index.ts) *)

Module ConfigEnv.
Import Retry.
Local Open Scope string_scope.

Fixpoint digitsValue (l : list Ascii.ascii) (acc : Z) : Z * nat :=
  match l with
  | c :: r => if Validation.isDigit c
              then let '(v, n) := digitsValue r (acc * 10 + Z.of_nat (Ascii.nat_of_ascii c - 48)) in
                   (v, S n)
              else (acc, O)
  | [] => (acc, O)
  end.

(** [parseInt(s, 10)]: leading white space, an optional sign, then the
    longest run of decimal digits; [None] is [NaN]. *)
Definition parseInt10 (s : string) : option Z :=
  let l := Validation.dropWs (list_ascii_of_string s) in
  let '(sign, rest) := match l with
                       | c :: r => if Ascii.eqb c "-"%char then (-1, r)
                                   else if Ascii.eqb c "+"%char then (1, r) else (1, l)
                       | [] => (1, l)
                       end in
  let '(v, n) := digitsValue rest 0 in
  if Nat.eqb n 0 then None else Some (sign * v).

(** The [MAX_RETRIES] branch of [loadEnvironmentOverrides()]. *)
Definition loadRetryOverride (maxRetriesEnv : option string) (r : RetryConfig)
    : RetryConfig :=
  match maxRetriesEnv with
  | Some s =>
      if String.eqb s "" then r
      else match parseInt10 s with
           | Some n => if Z.ltb 0 n then
                         {| maxOperationRetries := n; maxProcessRetries := n;
                            cfgBaseDelay := cfgBaseDelay r; cfgMaxDelay := cfgMaxDelay r;
                            cfgBackoffMultiplier := cfgBackoffMultiplier r |}
                       else r
           | None => r
           end
  | None => r
  end.

(** The options [withRetry] falls back to: [configManager.getRetryConfig()]. *)
Definition defaultRetryOptions (r : RetryConfig) : RetryOptions := {|
  maxRetries := maxOperationRetries r; baseDelay := cfgBaseDelay r;
  maxDelay := cfgMaxDelay r; backoffMultiplier := cfgBackoffMultiplier r
|}.

End ConfigEnv.

(* ------------------------------------------------------------------------ *)
(** * withTimeoutMeasurement (src/utils/adaptiveTimeout.ts) *)

Module Measurement.
Import AdaptiveTimeout Retry.
Local Open Scope string_scope.

(** Which side of [Promise.race([operation(), timeoutPromise])] settles
    first, given the timeout in force. *)
Inductive raced (A : Type) :=
| OpResolved (v : A)
| OpRejected (r : reason)
| TimerFired.
Arguments OpResolved {A} v.
Arguments OpRejected {A} r.
Arguments TimerFired {A}.

(** [withTimeoutMeasurement(operation, operationType, timeoutMs)]: the
    manager's metrics before and after, and how the call settles;
    [responseTime] is [Date.now() - startTime] in the [finally] block. *)
Definition withTimeoutMeasurement {A} (m : TimeoutMetrics) (operationType : OperationType)
    (timeoutMs : option Z) (race : Z -> raced A) (responseTime : Z)
    : TimeoutMetrics * outcome A :=
  let adaptiveTimeout := match timeoutMs with
                         | Some x => if Z.eqb x 0 then getAdaptiveTimeout m operationType else x
                         | None => getAdaptiveTimeout m operationType
                         end in
  match race adaptiveTimeout with
  | OpResolved v => (recordMeasurement m responseTime true, Returned v)
  | OpRejected r => (recordMeasurement m responseTime false, Thrown r)
  | TimerFired =>
      (recordMeasurement m responseTime false,
       Thrown (RError (NewError ("Operation timeout after "
                                 ++ Notify.decimal adaptiveTimeout ++ "ms"))))
  end.

End Measurement.

(* ------------------------------------------------------------------------ *)
(** * JobKoreaService.waitForAnySelector (src/services/jobkorea.ts) *)

Module Selector.
Import AdaptiveTimeout Retry Measurement.
Local Open Scope string_scope.

(** [options.timeout || timeoutManager.getAdaptiveTimeout('element')] *)
Definition resolveBudget (timeout : option Z) (adaptive : Z) : Z :=
  match timeout with
  | Some t => if Z.eqb t 0 then adaptive else t
  | None => adaptive
  end.

(** How one [page.waitForSelector(selector, {state, timeout})] call
    settles: whether it resolves, and how many ms after the call. *)
Record waitResult := {
  found : bool;
  took : Z
}.

(** The [for (const selector of selectors)] loop: the calls made, with
    their timeout, the time the loop takes, and the selector returned. *)
Fixpoint tryCandidates (waitFor : string -> Z -> waitResult) (slice : Z)
    (cs : list string) : list (string * Z) * Z * option string :=
  match cs with
  | [] => ([], 0%Z, None)
  | c :: rest =>
      let w := waitFor c slice in
      if found w then ([(c, slice)], took w, Some c)
      else let '(calls, t, r) := tryCandidates waitFor slice rest in
           ((c, slice) :: calls, (took w + t)%Z, r)
  end.

Definition allFailedMessage (selectors : list string) : string :=
  "모든 셀렉터 실패: " ++ String.concat ", " selectors.

(** The operation handed to [withTimeoutMeasurement]; [budget] is
    [adaptiveTimeout]. *)
Definition anySelectorOperation (waitFor : string -> Z -> waitResult) (budget : Z)
    (selectors : list string) : list (string * Z) * Z * outcome string :=
  let slice := (budget / Z.of_nat (List.length selectors))%Z in
  let '(calls, t, r) := tryCandidates waitFor slice selectors in
  (calls, t, match r with
             | Some s => Returned s
             | None => Thrown (RError (NewError (allFailedMessage selectors)))
             end).

(** The delay Node gives [setTimeout(cb, ms)]: [1] for [ms] below 1 or
    above [2147483647]. *)
Definition nodeTimerDelay (ms : Z) : Z :=
  if Z.ltb ms 1 || Z.ltb 2147483647 ms then 1%Z else ms.

(** [Promise.race([operation(), timeoutPromise])] with the timer armed just
    before [operation()] starts: the side that settles first wins.  Which of
    two callbacks due in the same millisecond runs first is left open by the
    code; [timerFirst] fixes it. *)
Definition raceTimer {A} (timerFirst : bool) (elapsed : Z) (res : outcome A)
    (timeout : Z) : raced A :=
  let opSide := match res with
                | Returned v => OpResolved v
                | Thrown r => OpRejected r
                end in
  let delay := nodeTimerDelay timeout in
  if Z.ltb elapsed delay then opSide
  else if Z.ltb delay elapsed then TimerFired
  else if timerFirst then TimerFired else opSide.

(** [waitForAnySelector(selectors, options)]: the manager's metrics after
    the call, the [waitForSelector] calls of the loop (which the race does
    not cancel) and how the call settles; [responseTime] is the time at
    which the race settles. *)
Definition waitForAnySelector (timerFirst : bool) (m : TimeoutMetrics)
    (timeout : option Z) (waitFor : string -> Z -> waitResult) (selectors : list string)
    : TimeoutMetrics * list (string * Z) * outcome string :=
  let adaptiveTimeout := resolveBudget timeout (getAdaptiveTimeout m element) in
  let '(calls, elapsed, res) := anySelectorOperation waitFor adaptiveTimeout selectors in
  let '(m', out) := withTimeoutMeasurement m element (Some adaptiveTimeout)
                      (raceTimer timerFirst elapsed res)
                      (Z.min elapsed (nodeTimerDelay adaptiveTimeout)) in
  (m', calls, out).

End Selector.

(* ------------------------------------------------------------------------ *)
(** * updateResume helpers (src/updateResume.ts) *)

Module UpdateResume.
Import Retry.
Local Open Scope string_scope.

Definition nl : string := String (Ascii.ascii_of_nat 10) "".

(** [text.replace(/c/g, rep)] for a one-character pattern. *)
Fixpoint replaceChar (c : Ascii.ascii) (rep : string) (s : string) : string :=
  match s with
  | EmptyString => EmptyString
  | String d r => if Ascii.eqb d c then rep ++ replaceChar c rep r
                  else String d (replaceChar c rep r)
  end.

(** [escapeHtml(text)] *)
Definition escapeHtml (text : string) : string :=
  replaceChar ">"%char "&gt;" (replaceChar "<"%char "&lt;" (replaceChar "&"%char "&amp;" text)).

(** [retryInfo] of [sendSuccessNotification]. *)
Definition successRetryInfo (retryCount : Z) : string :=
  if Z.ltb 1 retryCount then nl ++ "재시도 횟수: " ++ Notify.decimal (retryCount - 1) ++ "번"
  else "".

(** The value caught by [handleError]. *)
Inductive caught :=
| CJobKoreaError (message : string) (code : string)
| CError (message : string)
| COther.

(** [errorMessage] of [handleError(error, token, chatId, retryCount)]. *)
Definition handleErrorMessage (error : caught) (retryCount : Z) : string :=
  let retryInfo := if Z.ltb 0 retryCount
                   then nl ++ "재시도 횟수: " ++ Notify.decimal retryCount ++ "번 (모든 재시도 실패)"
                   else "" in
  let rawMessage := match error with
                    | CJobKoreaError m _ => m
                    | CError m => m
                    | COther => "알 수 없는 오류"
                    end in
  let safeMessage := escapeHtml rawMessage in
  match error with
  | CJobKoreaError _ code =>
      "❌ 이력서 업데이트 최종 실패!" ++ nl ++ "이유: " ++ safeMessage ++ " (" ++ code ++ ")"
      ++ retryInfo
  | _ => "❌ 이력서 업데이트 최종 실패!" ++ nl ++ "이유: " ++ safeMessage ++ retryInfo
  end.

Definition isInvoke (e : event) : bool :=
  match e with EInvoke _ => true | _ => false end.

(** The restart callback of [updateResume]: [Logger.info], then
    [await browserService.close()], then a 1000ms pause.  [close()] catches
    whatever [page.close()], [context.close()] or [browser.close()] rejects
    with ([closeFailure]) and hands it to [Logger.error]; so the callback
    rejects only when that call throws, and then with its [TypeError], an
    [Error] instance. *)
Definition restartCallback (closeFailure : option restartError) : restartResult :=
  match closeFailure with
  | Some e => match loggerErrorThrows e with
              | Some te => RestartFail (RestartErr te)
              | None => RestartOk
              end
  | None => RestartOk
  end.

(** The process part of [updateResume]: the workflow increments
    [retryCount] once per invocation; [attempts k] is how the [k]-th
    workflow run settles, [restarts k] what the [close()] calls of the
    [k]-th restart reject with, if anything. *)
Definition runProcess (attempts : Z -> settle unit) (restarts : Z -> option restartError)
    : Z * outcome unit :=
  let '(tr, res) := withBrowserRestart attempts (fun k => restartCallback (restarts k))
                      (maxProcessRetries retryConfig) in
  (Z.of_nat (List.length (filter isInvoke tr)), res).

End UpdateResume.

(* ------------------------------------------------------------------------ *)
(** * Schedules of the retry loops *)

Module Schedule.
Import Retry.

(** [Math.min(baseDelay * Math.pow(backoffMultiplier, attempt - 1), maxDelay)] *)
Definition backoffDelay (o : RetryOptions) (attempt : Z) : Z :=
  Z.min (baseDelay o * backoffMultiplier o ^ (attempt - 1)) (maxDelay o).

(** [n] invocations of [withRetry] from attempt [a], with the backoff delay
    after each one but the last. *)
Fixpoint retrySchedule (o : RetryOptions) (a : Z) (n : nat) : list event :=
  match n with
  | O => []
  | S O => [EInvoke a]
  | S n' => EInvoke a :: ESleep (backoffDelay o a) :: retrySchedule o (a + 1) n'
  end.

(** The events of the restart step after a failed attempt [a]. *)
Definition restartLog (rs : Z -> restartResult) (a : Z) : list event :=
  fst (restartStep a (rs a)).

(** [n] invocations of [withBrowserRestart] from attempt [a], each restart
    step but the last one's swallowed. *)
Fixpoint restartSchedule (rs : Z -> restartResult) (a : Z) (n : nat) : list event :=
  match n with
  | O => []
  | S O => [EInvoke a]
  | S n' => EInvoke a :: restartLog rs a ++ ESleep (cfgBaseDelay retryConfig)
              :: restartSchedule rs (a + 1) n'
  end.

Definition isRestart (e : event) : bool :=
  match e with ERestart _ => true | _ => false end.

End Schedule.

(* ------------------------------------------------------------------------ *)
(** * Error codes (src/types.ts) *)

Module Types.
Local Open Scope string_scope.

(** The values of [ERROR_CODES]: the type [ErrorCode] of [JobKoreaError.code].
    None of them names an [Object.prototype] property, so a [byCode] object
    indexed by them behaves as a plain map. *)
Definition ERROR_CODES : list string :=
  ["AUTH_ERROR"; "NAVIGATION_ERROR"; "UPDATE_ERROR"; "TIMEOUT_ERROR"; "NETWORK_ERROR";
   "VALIDATION_ERROR"].

End Types.

(* ------------------------------------------------------------------------ *)
(** * Properties of the adaptive timeout estimator *)

Module AdaptiveTimeoutFacts.
Import AdaptiveTimeout.

(** ** Helper lemmas *)

Lemma Qmax_ge_l a b : (a <= Qmax a b)%Q.
Proof. unfold Qmax; destruct (Qlt_le_dec a b); [apply Qlt_le_weak|apply Qle_refl]; auto. Qed.

Lemma Qmax_ge_r a b : (b <= Qmax a b)%Q.
Proof. unfold Qmax; destruct (Qlt_le_dec a b); [apply Qle_refl|auto]. Qed.

Lemma Qmax_le a b c : (a <= c)%Q -> (b <= c)%Q -> (Qmax a b <= c)%Q.
Proof. unfold Qmax; destruct (Qlt_le_dec a b); auto. Qed.

Lemma Qmin_le_l a b : (Qmin a b <= a)%Q.
Proof. unfold Qmin; destruct (Qlt_le_dec b a); [apply Qlt_le_weak|apply Qle_refl]; auto. Qed.

Lemma Qmin_ge a b c : (c <= a)%Q -> (c <= b)%Q -> (c <= Qmin a b)%Q.
Proof. unfold Qmin; destruct (Qlt_le_dec b a); auto. Qed.

Lemma Math_round_mono x y : (x <= y)%Q -> Math_round x <= Math_round y.
Proof.
  intro H; unfold Math_round; apply Qfloor_resp_le.
  apply Qplus_le_compat; [exact H|apply Qle_refl].
Qed.

Lemma getAdaptiveTimeout_adaptive m t :
  3 <= measurementCount m ->
  exists a2, getAdaptiveTimeout m t =
    Math_round (Qmax (inject_Z (minTimeout config))
                     (Qmin (inject_Z (maxTimeout config)) a2)) /\
    (if Qlt_le_dec (successRate m) (successThreshold config)
     then inject_Z (typeBaseTimeout t) * failureMultiplier config <= a2
     else True)%Q.
Proof.
  intro H3; unfold getAdaptiveTimeout.
  replace (measurementCount m <? 3) with false by (symmetry; apply Z.ltb_ge; lia).
  eexists; split; [reflexivity|].
  destruct (Qlt_le_dec (successRate m) (successThreshold config)); [|exact I].
  destruct (Qlt_le_dec 0 (averageResponseTime m)); [apply Qmax_ge_l|apply Qle_refl].
Qed.

Lemma measurementCount_recordMeasurement m t b :
  measurementCount (recordMeasurement m t b) = measurementCount m + 1.
Proof. unfold recordMeasurement; destruct b; reflexivity. Qed.

(** Below three measurements the per-type base is returned as is. *)
Lemma insufficient_data_base m t :
  measurementCount m < 3 -> getAdaptiveTimeout m t = typeBaseTimeout t.
Proof.
  intro H; unfold getAdaptiveTimeout.
  replace (measurementCount m <? 3) with true by (symmetry; apply Z.ltb_lt; exact H).
  reflexivity.
Qed.

(** In the low-success-rate branch the result is at least the base times
    the failure multiplier. *)
Lemma failure_branch_exceeds_base m t :
  3 <= measurementCount m -> (successRate m < successThreshold config)%Q ->
  typeBaseTimeout t < getAdaptiveTimeout m t.
Proof.
  intros H3 Hlow.
  destruct (getAdaptiveTimeout_adaptive m t H3) as [a2 [-> Ha2]].
  destruct (Qlt_le_dec (successRate m) (successThreshold config)) as [_|Hge];
    [|exfalso; apply (Qlt_not_le _ _ Hlow Hge)].
  assert (Hcap : (inject_Z (typeBaseTimeout t) * failureMultiplier config
                  <= inject_Z (maxTimeout config))%Q)
    by (apply Qle_bool_imp_le; destruct t; reflexivity).
  assert (Hr : Math_round (inject_Z (typeBaseTimeout t) * failureMultiplier config)
               <= Math_round (Qmax (inject_Z (minTimeout config))
                                   (Qmin (inject_Z (maxTimeout config)) a2))).
  { apply Math_round_mono.
    eapply Qle_trans; [|apply Qmax_ge_r].
    apply Qmin_ge; assumption. }
  enough (typeBaseTimeout t <
          Math_round (inject_Z (typeBaseTimeout t) * failureMultiplier config)) by lia.
  destruct t; vm_compute; reflexivity.
Qed.

(** The clamp and the rounding keep the result in [[minTimeout, maxTimeout]]. *)
Lemma round_clamp_bounds a2 :
  minTimeout config <= Math_round (Qmax (inject_Z (minTimeout config))
                                        (Qmin (inject_Z (maxTimeout config)) a2))
  <= maxTimeout config.
Proof.
  split.
  - transitivity (Math_round (inject_Z (minTimeout config))).
    + vm_compute; discriminate.
    + apply Math_round_mono, Qmax_ge_l.
  - transitivity (Math_round (inject_Z (maxTimeout config))).
    + apply Math_round_mono, Qmax_le.
      * apply Qle_bool_imp_le; reflexivity.
      * apply Qmin_le_l.
    + vm_compute; discriminate.
Qed.

(** Recording in the window: push, then [shift] when over [W]. *)
Lemma window_push_lastn (L : list Z) (t : Z) :
  (let pushed := lastn 10 L ++ [t] in
   if Z.of_nat (List.length pushed) >? 10 then shift pushed else pushed)
  = lastn 10 (L ++ [t]).
Proof.
  cbv zeta. unfold lastn, shift.
  rewrite !length_app; simpl List.length.
  rewrite length_skipn.
  destruct (Nat.lt_ge_cases (List.length L) 10) as [Hlt|Hge].
  - replace (List.length L - 10)%nat with 0%nat by lia.
    replace (List.length L + 1 - 10)%nat with 0%nat by lia.
    replace (Z.of_nat (List.length L - 0 + 1) >? 10) with false
      by (symmetry; rewrite Z.gtb_ltb; apply Z.ltb_ge; lia).
    reflexivity.
  - replace (Z.of_nat (List.length L - (List.length L - 10) + 1) >? 10) with true
      by (symmetry; rewrite Z.gtb_ltb; apply Z.ltb_lt; lia).
    rewrite skipn_app.
    replace (List.length L + 1 - 10 - List.length L)%nat with 0%nat by lia.
    replace (List.length L + 1 - 10)%nat with (1 + (List.length L - 10))%nat by lia.
    rewrite <- skipn_skipn.
    destruct (skipn (List.length L - 10) L) as [|x xs] eqn:E; [|reflexivity].
    apply (f_equal (@List.length Z)) in E. rewrite length_skipn in E. simpl in E. lia.
Qed.

Lemma recordAll_snoc m obs o :
  recordAll m (obs ++ [o]) = recordMeasurement (recordAll m obs) (fst o) (snd o).
Proof. unfold recordAll; rewrite fold_left_app; reflexivity. Qed.

Lemma successDurations_snoc obs t b :
  successDurations (obs ++ [(t, b)]) =
  successDurations obs ++ (if b then [t] else []).
Proof.
  unfold successDurations; rewrite filter_app, map_app; destruct b; reflexivity.
Qed.

Lemma recordAll_window obs :
  lastMeasurements (recordAll initialMetrics obs) = lastn 10 (successDurations obs) /\
  measurementCount (recordAll initialMetrics obs) = Z.of_nat (List.length obs).
Proof.
  induction obs as [|[t b] obs IH] using rev_ind.
  - split; reflexivity.
  - rewrite recordAll_snoc, successDurations_snoc, length_app.
    destruct IH as [IHl IHc]. simpl fst; simpl snd.
    split.
    + unfold recordMeasurement at 1. destruct b.
      * simpl lastMeasurements. rewrite IHl. apply window_push_lastn.
      * simpl. rewrite app_nil_r. exact IHl.
    + rewrite measurementCount_recordMeasurement, IHc. simpl List.length. lia.
Qed.

Lemma lastn_length_le {A} (n : nat) (l : list A) : (List.length (lastn n l) <= n)%nat.
Proof. unfold lastn; rewrite length_skipn; lia. Qed.

(** ** Claims about the estimator *)

(** C1 (counterexample): the statistics are not kept per category.  From the
    state reached by two successful 1000ms measurements, one more measurement
    taken for a [network] operation changes the [popup] timeout from 10000
    to 9000. *)
Lemma C1_cross_category_counterexample :
  let s := recordAll initialMetrics [(1000, true); (1000, true)] in
  getAdaptiveTimeout s popup = 10000 /\
  getAdaptiveTimeout (recordForOperation s network 1000 true) popup = 9000.
Proof. split; vm_compute; reflexivity. Qed.

(** C1 (amended): one set of statistics is shared by all categories.  The
    category an operation is attributed to does not affect what is recorded,
    and when the third recorded measurement (of any category) brings the
    shared success rate below the threshold, the timeout of every category
    rises strictly above what it was. *)
Theorem C1_shared_statistics s c1 c2 t b :
  measurementCount s = 2 ->
  (successRate (recordForOperation s c1 t b) < successThreshold config)%Q ->
  (forall c, recordForOperation s c t b = recordForOperation s c1 t b) /\
  getAdaptiveTimeout s c2 < getAdaptiveTimeout (recordForOperation s c1 t b) c2.
Proof.
  intros H2 Hlow. split; [reflexivity|].
  rewrite (insufficient_data_base s c2) by lia.
  apply failure_branch_exceeds_base; [|exact Hlow].
  unfold recordForOperation. rewrite measurementCount_recordMeasurement. lia.
Qed.

Lemma C1_shared_statistics_witness :
  let s := recordAll initialMetrics [(100, false); (100, false)] in
  measurementCount s = 2 /\
  (successRate (recordForOperation s network 100 false) < successThreshold config)%Q /\
  (forall c, recordForOperation s c 100 false = recordForOperation s network 100 false) /\
  getAdaptiveTimeout s navigation
    < getAdaptiveTimeout (recordForOperation s network 100 false) navigation.
Proof.
  cbv zeta. split; [vm_compute; reflexivity|]. split; [vm_compute; reflexivity|].
  apply (C1_shared_statistics _ network navigation 100 false);
    vm_compute; reflexivity.
Defined.

(** C5: while fewer than 3 measurements were recorded, the result is the
    fixed per-category base (20000, 15000, 10000, 8000), whatever the
    recorded outcomes. *)
Theorem C5_insufficient_data_returns_base m t :
  measurementCount m < 3 ->
  getAdaptiveTimeout m t = typeBaseTimeout t /\
  typeBaseTimeout navigation = 20000 /\ typeBaseTimeout element = 15000 /\
  typeBaseTimeout popup = 10000 /\ typeBaseTimeout network = 8000.
Proof.
  intro H. split; [apply insufficient_data_base; exact H|].
  repeat split.
Qed.

Lemma C5_insufficient_data_returns_base_witness :
  let m := recordAll initialMetrics [(100000, true); (7, false)] in
  measurementCount m < 3 /\
  getAdaptiveTimeout m network = typeBaseTimeout network /\
  typeBaseTimeout navigation = 20000 /\ typeBaseTimeout element = 15000 /\
  typeBaseTimeout popup = 10000 /\ typeBaseTimeout network = 8000.
Proof.
  cbv zeta. split; [vm_compute; reflexivity|].
  apply C5_insufficient_data_returns_base. vm_compute; reflexivity.
Defined.

(** C6: along every sequence of [recordMeasurement] calls from the initial
    (or reset) metrics, the window holds the last [W = 10] successful
    durations in order (so at most [W] samples, only successful ones, the
    oldest evicted first), the count is the number of calls, and every call
    adds 1 to the count and sets the success rate to
    (samples in the window) / min(W, count). *)
Theorem C6_window_invariant (obs : list (Z * bool)) :
  let m := recordAll initialMetrics obs in
  lastMeasurements m
    = lastn (Z.to_nat (measurementWindow config)) (successDurations obs) /\
  (List.length (lastMeasurements m) <= Z.to_nat (measurementWindow config))%nat /\
  measurementCount m = Z.of_nat (List.length obs) /\
  (forall t b,
     measurementCount (recordMeasurement m t b) = measurementCount m + 1 /\
     successRate (recordMeasurement m t b)
       = (inject_Z (Z.of_nat (List.length (lastMeasurements (recordMeasurement m t b))))
          / inject_Z (Z.min (measurementWindow config)
                            (measurementCount (recordMeasurement m t b))))%Q).
Proof.
  cbv zeta. destruct (recordAll_window obs) as [Hl Hc].
  split; [exact Hl|]. split.
  { rewrite Hl. apply lastn_length_le. }
  split; [exact Hc|].
  intros t b. split; [apply measurementCount_recordMeasurement|].
  unfold recordMeasurement; destruct b; reflexivity.
Qed.

(** C7: with at least 3 measurements and a success rate below 0.8, the
    result strictly exceeds the category's base timeout. *)
Theorem C7_low_success_exceeds_base m t :
  3 <= measurementCount m ->
  (successRate m < successThreshold config)%Q ->
  typeBaseTimeout t < getAdaptiveTimeout m t.
Proof. apply failure_branch_exceeds_base. Qed.

Lemma C7_low_success_exceeds_base_witness :
  let m := recordAll initialMetrics [(900, true); (0, false); (0, false); (0, false)] in
  3 <= measurementCount m /\ (successRate m < successThreshold config)%Q /\
  typeBaseTimeout navigation < getAdaptiveTimeout m navigation.
Proof.
  cbv zeta. split; [vm_compute; discriminate|]. split; [vm_compute; reflexivity|].
  apply C7_low_success_exceeds_base; [vm_compute; discriminate|vm_compute; reflexivity].
Defined.

(** C8: in every state and for every category the result lies within
    [[minTimeout, maxTimeout]] = [[5000, 30000]]. *)
Theorem C8_timeout_within_bounds m t :
  minTimeout config <= getAdaptiveTimeout m t <= maxTimeout config /\
  minTimeout config = 5000 /\ maxTimeout config = 30000.
Proof.
  split; [|split; reflexivity].
  destruct (Z.lt_ge_cases (measurementCount m) 3) as [Hlt|Hge].
  - rewrite insufficient_data_base by exact Hlt.
    destruct t; simpl; lia.
  - destruct (getAdaptiveTimeout_adaptive m t Hge) as [a2 [-> _]].
    apply round_clamp_bounds.
Qed.

Lemma adaptive_in_bounds m t : 5000 <= getAdaptiveTimeout m t <= 30000.
Proof.
  destruct (Z.lt_ge_cases (measurementCount m) 3) as [Hlt|Hge].
  - rewrite insufficient_data_base by exact Hlt. destruct t; simpl; lia.
  - destruct (getAdaptiveTimeout_adaptive m t Hge) as [a2 [-> _]].
    apply round_clamp_bounds.
Qed.

End AdaptiveTimeoutFacts.

(* ------------------------------------------------------------------------ *)
(** * Properties of the retriers, the notifier and the selector resolver *)

Module RetryFacts.
Import Retry.

Lemma withBrowserRestart_loop_restart_irrelevant {A} (fn : Z -> settle A) rs max
    fuel attempt lastError :
  (forall a, snd (restartStep a (rs a)) = None) ->
  snd (withBrowserRestart_loop fn rs max fuel attempt lastError)
    = snd (withBrowserRestart_loop fn (fun _ => RestartOk) max fuel attempt lastError) /\
  workflowEvents (fst (withBrowserRestart_loop fn rs max fuel attempt lastError))
    = workflowEvents
        (fst (withBrowserRestart_loop fn (fun _ => RestartOk) max fuel attempt lastError)).
Proof.
  intro Hno. revert attempt lastError.
  induction fuel as [|fuel IH]; intros attempt lastError; [split; reflexivity|].
  simpl. destruct (attempt <=? max); [|split; reflexivity].
  destruct (fn attempt) as [v|r]; [split; reflexivity|].
  destruct (attempt =? max); [split; reflexivity|].
  destruct (IH (attempt + 1) (toError r)) as [IHo IHe].
  destruct (withBrowserRestart_loop fn rs max fuel (attempt + 1) (toError r)) as [tr1 o1].
  destruct (withBrowserRestart_loop fn (fun _ => RestartOk) max fuel (attempt + 1)
              (toError r)) as [tr2 o2].
  simpl in IHo, IHe. specialize (Hno attempt).
  destruct (rs attempt) as [|e]; simpl in Hno |- *.
  - split; [exact IHo|rewrite IHe; reflexivity].
  - destruct (loggerErrorThrows e); [discriminate Hno|].
    simpl. split; [exact IHo|rewrite IHe; reflexivity].
Qed.

(** C3 (counterexample): a rejection reason that is not an [Error]
    instance is not re-raised unchanged; it is wrapped in
    [new Error(String(reason))]. *)
Lemma C3_nonerror_wrapped_counterexample :
  withRetry (A := unit) (fun _ => Reject (RValue "boom")) policy3
    = ([EInvoke 1; ESleep 2000; EInvoke 2; ESleep 4000; EInvoke 3],
       Thrown (RError (NewError "boom"))) /\
  snd (withRetry (A := unit) (fun _ => Reject (RValue "boom")) policy3)
    <> Thrown (RValue "boom").
Proof. split; [reflexivity|discriminate]. Qed.

(** C3 (amended): with 3 attempts, 2000ms base, x2 and a 10000ms cap, an
    action rejecting on every attempt is invoked exactly 3 times with delays
    2000ms then 4000ms in between and none after the last failure; the last
    reason is re-raised as [error instanceof Error ? error : new
    Error(String(error))], so unchanged exactly when it is an [Error]. *)
Theorem C3_always_rejecting {A} (fn : Z -> settle A) (r : Z -> reason) :
  (forall k, fn k = Reject (r k)) ->
  withRetry fn policy3
    = ([EInvoke 1; ESleep (Z.min (2000 * 2 ^ 0) 10000); EInvoke 2;
        ESleep (Z.min (2000 * 2 ^ 1) 10000); EInvoke 3],
       Thrown (RError (toError (r 3)))) /\
  Z.min (2000 * 2 ^ 0) 10000 = 2000 /\ Z.min (2000 * 2 ^ 1) 10000 = 4000 /\
  (forall e, r 3 = RError e -> snd (withRetry fn policy3) = Thrown (r 3)).
Proof.
  intro H.
  assert (Hrun : withRetry fn policy3
    = ([EInvoke 1; ESleep (Z.min (2000 * 2 ^ 0) 10000); EInvoke 2;
        ESleep (Z.min (2000 * 2 ^ 1) 10000); EInvoke 3],
       Thrown (RError (toError (r 3))))).
  { unfold withRetry; simpl. rewrite !H. reflexivity. }
  split; [exact Hrun|]. split; [reflexivity|]. split; [reflexivity|].
  intros e He. rewrite Hrun, He. reflexivity.
Qed.

Lemma C3_always_rejecting_witness :
  (forall k : Z, (fun k => Reject (A := unit) (RError (OriginalError (Z.to_nat k) "x"))) k
                 = Reject (RError (OriginalError (Z.to_nat k) "x"))) /\
  snd (withRetry (fun k => Reject (A := unit) (RError (OriginalError (Z.to_nat k) "x")))
                 policy3)
    = Thrown (RError (OriginalError 3 "x")).
Proof.
  split; [reflexivity|].
  exact (proj2 (proj2 (proj2
    (C3_always_rejecting (fun k => Reject (A := unit) (RError (OriginalError (Z.to_nat k) "x")))
       (fun k => RError (OriginalError (Z.to_nat k) "x")) (fun k => eq_refl))))
    (OriginalError 3 "x") eq_refl).
Defined.

(** C4: in [withBrowserRestart], a failing attempt [k] before the last runs
    the restart callback.  A rejection of the callback is swallowed exactly
    when [Logger.error] can log it (an [Error], a falsy value, an object with
    a string [message]): it is logged, the fixed base delay (2000ms) follows
    and attempt [k+1] invokes the workflow again.  Any other rejection value,
    e.g. a string, makes that [Logger.error] throw a [TypeError] (masking is
    on), which rejects [withBrowserRestart] with no further attempt.  While
    no restart failure escapes, neither the result nor the invocations and
    delays depend on how the restart callbacks settle. *)
Theorem C4_restart_failure_handling {A} (fn : Z -> settle A) rs max k r e lastError :
  1 <= k < max -> fn k = Reject r -> rs k = RestartFail e ->
  (loggerErrorThrows e = None <-> forall s, e <> RestartNoMessage s) /\
  (loggerErrorThrows e = None ->
     withBrowserRestart_loop fn rs max (S (Z.to_nat (max - k))) k lastError
       = (EInvoke k :: ERestart k :: ERestartFailed k :: ESleep (cfgBaseDelay retryConfig)
            :: fst (withBrowserRestart_loop fn rs max (Z.to_nat (max - k)) (k + 1) (toError r)),
          snd (withBrowserRestart_loop fn rs max (Z.to_nat (max - k)) (k + 1) (toError r))) /\
     (exists tr, fst (withBrowserRestart_loop fn rs max (Z.to_nat (max - k)) (k + 1)
                        (toError r)) = EInvoke (k + 1) :: tr)) /\
  (forall te, loggerErrorThrows e = Some te ->
     te = ReplaceTypeError /\
     withBrowserRestart_loop fn rs max (S (Z.to_nat (max - k))) k lastError
       = ([EInvoke k; ERestart k], Thrown (RError ReplaceTypeError))) /\
  cfgBaseDelay retryConfig = 2000 /\
  ((forall a, snd (restartStep a (rs a)) = None) ->
     snd (withBrowserRestart fn rs max) = snd (withBrowserRestart fn (fun _ => RestartOk) max) /\
     workflowEvents (fst (withBrowserRestart fn rs max))
       = workflowEvents (fst (withBrowserRestart fn (fun _ => RestartOk) max))).
Proof.
  intros Hk Hfn Hrs.
  assert (Hstep : withBrowserRestart_loop fn rs max (S (Z.to_nat (max - k))) k lastError
    = let '(restartLog, escaped) := restartStep k (RestartFail e) in
      match escaped with
      | Some te => (EInvoke k :: restartLog, Thrown (RError te))
      | None =>
          let '(tr, res) := withBrowserRestart_loop fn rs max (Z.to_nat (max - k)) (k + 1)
                              (toError r) in
          (EInvoke k :: restartLog ++ ESleep (cfgBaseDelay retryConfig) :: tr, res)
      end).
  { cbn [withBrowserRestart_loop]. replace (k <=? max) with true by (symmetry; apply Z.leb_le; lia).
    rewrite Hfn. replace (k =? max) with false by (symmetry; apply Z.eqb_neq; lia).
    rewrite Hrs. reflexivity. }
  split.
  { split.
    - intros H s ->. discriminate H.
    - intro H. destruct e; try reflexivity. exfalso. exact (H repr eq_refl). }
  split.
  { intro He. split.
    - rewrite Hstep. cbn [restartStep]. rewrite He. cbn [app].
      destruct (withBrowserRestart_loop fn rs max (Z.to_nat (max - k)) (k + 1) (toError r));
        reflexivity.
    - replace (Z.to_nat (max - k)) with (S (Z.to_nat (max - k - 1))) by lia.
      cbn [withBrowserRestart_loop].
      replace (k + 1 <=? max) with true by (symmetry; apply Z.leb_le; lia).
      destruct (fn (k + 1)); [eexists; reflexivity|].
      destruct (k + 1 =? max); [eexists; reflexivity|].
      destruct (restartStep (k + 1) (rs (k + 1))) as [rl [te|]];
        [eexists; reflexivity|].
      destruct (withBrowserRestart_loop fn rs max (Z.to_nat (max - k - 1)) (k + 1 + 1) _).
      eexists; reflexivity. }
  split.
  { intros te He. destruct e; try discriminate He.
    injection He as <-. split; [reflexivity|]. rewrite Hstep. reflexivity. }
  split; [reflexivity|].
  intro Hno. apply withBrowserRestart_loop_restart_irrelevant. exact Hno.
Qed.

Lemma C4_restart_failure_handling_witness :
  let fn := fun k : Z => if k =? 2 then Resolve (A := unit) tt
                         else Reject (RValue "boom") in
  let rs := fun _ : Z => RestartFail (RestartNoMessage "restart failed") in
  (1 <= 1 < 3 /\ fn 1 = Reject (RValue "boom") /\
   rs 1 = RestartFail (RestartNoMessage "restart failed")) /\
  withBrowserRestart fn rs 3 = ([EInvoke 1; ERestart 1], Thrown (RError ReplaceTypeError)).
Proof.
  cbv zeta. split; [repeat split; lia|].
  destruct (C4_restart_failure_handling
              (fun k : Z => if k =? 2 then Resolve (A := unit) tt else Reject (RValue "boom"))
              (fun _ : Z => RestartFail (RestartNoMessage "restart failed")) 3 1
              (RValue "boom") (RestartNoMessage "restart failed") noAttemptsError
              ltac:(lia) eq_refl eq_refl) as [_ [_ [Hesc _]]].
  exact (proj2 (Hesc ReplaceTypeError eq_refl)).
Defined.

(** C10: with [maxRetries <= 0] neither retrier invokes the action; both
    reject with [new Error("No attempts made")]. *)
Theorem C10_no_attempts {A} (fn : Z -> settle A) (o : RetryOptions) :
  maxRetries o <= 0 ->
  withRetry fn o = ([], Thrown (RError (NewError "No attempts made"))) /\
  (forall rs, withBrowserRestart fn rs (maxRetries o)
              = ([], Thrown (RError (NewError "No attempts made")))).
Proof.
  intro H. unfold withRetry, withBrowserRestart.
  replace (Z.to_nat (maxRetries o)) with O by lia.
  split; [reflexivity|intro; reflexivity].
Qed.

Lemma C10_no_attempts_witness :
  let o := {| maxRetries := -1; baseDelay := 2000; maxDelay := 10000;
              backoffMultiplier := 2 |} in
  maxRetries o <= 0 /\
  withRetry (A := unit) (fun _ => Resolve tt) o
    = ([], Thrown (RError (NewError "No attempts made"))).
Proof.
  cbv zeta. split; [simpl; lia|].
  apply (C10_no_attempts (fun _ => Resolve tt)). simpl; lia.
Defined.

End RetryFacts.

(* ------------------------------------------------------------------------ *)

Module NotifyFacts.
Import Retry Notify.

(** C2: a 4xx reply, logged as a permanent error, is thrown into
    [withRetry] like any other failure and is retried: the POST is made
    3 times, 2000ms and 4000ms apart.  A 5xx reply is retried on the same
    schedule. *)
Theorem C2_client_error_retried :
  sendTelegramMessage (fun _ => Fetched badRequest)
    = ([EInvoke 1; ESleep 2000; EInvoke 2; ESleep 4000; EInvoke 3],
       Thrown (RError (NewError "Telegram API error: 400 Bad Request - chat not found"))) /\
  fst (sendTelegramMessage (fun _ => Fetched serverError))
    = [EInvoke 1; ESleep 2000; EInvoke 2; ESleep 4000; EInvoke 3].
Proof. split; vm_compute; reflexivity. Qed.

End NotifyFacts.

Module SelectorFacts.
Import AdaptiveTimeout AdaptiveTimeoutFacts Retry Measurement Selector.

Lemma tryCandidates_first_success waitFor slice pre c post :
  Forall (fun p => found (waitFor p slice) = false) pre -> found (waitFor c slice) = true ->
  tryCandidates waitFor slice (pre ++ c :: post)
    = (map (fun p => (p, slice)) (pre ++ [c]),
       fold_right Z.add 0 (map (fun p => took (waitFor p slice)) (pre ++ [c])), Some c).
Proof.
  intros Hpre Hc. induction Hpre as [|p pre Hp Hpre IH]; cbn [app tryCandidates].
  - rewrite Hc. cbn [map fold_right]. rewrite Z.add_0_r. reflexivity.
  - rewrite Hp, IH. reflexivity.
Qed.

Lemma tryCandidates_all_fail waitFor slice cs :
  Forall (fun p => found (waitFor p slice) = false) cs ->
  tryCandidates waitFor slice cs
    = (map (fun p => (p, slice)) cs,
       fold_right Z.add 0 (map (fun p => took (waitFor p slice)) cs), None).
Proof.
  intro H. induction H as [|p cs Hp H IH]; cbn [tryCandidates]; [reflexivity|].
  rewrite Hp, IH. reflexivity.
Qed.

Lemma resolveBudget_nonzero m timeout :
  resolveBudget timeout (getAdaptiveTimeout m element) <> 0.
Proof.
  pose proof (adaptive_in_bounds m element) as Hb.
  unfold resolveBudget. destruct timeout as [t|]; [|lia].
  destruct (Z.eqb t 0) eqn:E; [lia|apply Z.eqb_neq; exact E].
Qed.

(** The race of [waitForAnySelector] given how its operation ends. *)
Lemma waitForAnySelector_race timerFirst m timeout waitFor cs calls elapsed res :
  let budget := resolveBudget timeout (getAdaptiveTimeout m element) in
  anySelectorOperation waitFor budget cs = (calls, elapsed, res) ->
  snd (fst (waitForAnySelector timerFirst m timeout waitFor cs)) = calls /\
  (elapsed < nodeTimerDelay budget -> snd (waitForAnySelector timerFirst m timeout waitFor cs) = res) /\
  (nodeTimerDelay budget < elapsed ->
     snd (waitForAnySelector timerFirst m timeout waitFor cs)
     = Thrown (RError (NewError ("Operation timeout after " ++ Notify.decimal budget ++ "ms")%string))).
Proof.
  cbv zeta. intro Hop. unfold waitForAnySelector. rewrite Hop.
  split; [destruct (withTimeoutMeasurement _ _ _ _ _); reflexivity|].
  unfold withTimeoutMeasurement.
  replace (Z.eqb (resolveBudget timeout (getAdaptiveTimeout m element)) 0) with false
    by (symmetry; apply Z.eqb_neq; apply resolveBudget_nonzero).
  unfold raceTimer. split.
  - intro Hlt. replace (Z.ltb elapsed _) with true by (symmetry; apply Z.ltb_lt; exact Hlt).
    destruct res; reflexivity.
  - intro Hgt. replace (Z.ltb elapsed _) with false by (symmetry; apply Z.ltb_ge; lia).
    replace (Z.ltb (nodeTimerDelay _) elapsed) with true by (symmetry; apply Z.ltb_lt; exact Hgt).
    reflexivity.
Qed.

(** C9 (counterexample): when every candidate fails one millisecond after
    its slice, the loop ends after the timer of the same budget has fired,
    so the call rejects with the timeout error of [withTimeoutMeasurement],
    not with the error listing the candidates, whichever of two callbacks
    due in the same millisecond runs first. *)
Lemma C9_timer_wins_counterexample :
  Forall (fun timerFirst =>
  snd (waitForAnySelector timerFirst initialMetrics (Some 10000)
         (fun _ t => {| found := false; took := t + 1 |}) ["#a"; "#b"]%string)
    = Thrown (RError (NewError "Operation timeout after 10000ms"%string)) /\
  snd (waitForAnySelector timerFirst initialMetrics (Some 10000)
         (fun _ t => {| found := false; took := t + 1 |}) ["#a"; "#b"]%string)
    <> Thrown (RError (NewError (allFailedMessage ["#a"; "#b"]%string))))
  [true; false].
Proof.
  repeat constructor; vm_compute; discriminate.
Qed.

(** C9 (amended): with budget [B = options.timeout || adaptive timeout], every
    candidate is waited for with the slice [floor(B / |candidates|)], in
    list order, and no candidate after the first one that resolves is tried.
    The loop races a timer of [B] ms armed before it: if the loop settles
    first, the call returns the first resolving candidate, or fails with the
    error listing all candidates when none resolves; if the timer fires
    first, the call fails with ["Operation timeout after B ms"] whatever the
    candidates do. *)
Theorem C9_selector_fallback_raced timerFirst m timeout waitFor cs :
  cs <> [] ->
  let budget := resolveBudget timeout (getAdaptiveTimeout m element) in
  let slice := budget / Z.of_nat (List.length cs) in
  let elapsed l := fold_right Z.add 0 (map (fun p => took (waitFor p slice)) l) in
  let result := snd (waitForAnySelector timerFirst m timeout waitFor cs) in
  let calls := snd (fst (waitForAnySelector timerFirst m timeout waitFor cs)) in
  let timeoutError :=
    Thrown (RError (NewError ("Operation timeout after " ++ Notify.decimal budget ++ "ms")%string)) in
  (forall pre c post, cs = pre ++ c :: post ->
     Forall (fun p => found (waitFor p slice) = false) pre -> found (waitFor c slice) = true ->
     calls = map (fun p => (p, slice)) (pre ++ [c]) /\
     (elapsed (pre ++ [c]) < nodeTimerDelay budget -> result = Returned c) /\
     (nodeTimerDelay budget < elapsed (pre ++ [c]) -> result = timeoutError)) /\
  (Forall (fun p => found (waitFor p slice) = false) cs ->
     calls = map (fun p => (p, slice)) cs /\
     (elapsed cs < nodeTimerDelay budget ->
        result = Thrown (RError (NewError ("모든 셀렉터 실패: " ++ String.concat ", " cs)%string))) /\
     (nodeTimerDelay budget < elapsed cs -> result = timeoutError)).
Proof.
  intros _. cbv zeta. split.
  - intros pre c post Hcs Hpre Hc.
    apply (waitForAnySelector_race timerFirst m timeout waitFor cs).
    subst cs. unfold anySelectorOperation.
    rewrite tryCandidates_first_success by assumption. reflexivity.
  - intro Hall. apply (waitForAnySelector_race timerFirst m timeout waitFor cs).
    unfold anySelectorOperation. rewrite tryCandidates_all_fail by assumption. reflexivity.
Qed.

Lemma C9_selector_fallback_raced_witness :
  let waitFor := fun (s : string) (t : Z) =>
    {| found := String.eqb s "#b"; took := if String.eqb s "#b" then 120 else t |} in
  ["#a"; "#b"; "#c"]%string <> [] /\
  snd (fst (waitForAnySelector false initialMetrics (Some 15000) waitFor ["#a"; "#b"; "#c"]%string))
    = [("#a", 5000); ("#b", 5000)]%string /\
  snd (waitForAnySelector false initialMetrics (Some 15000) waitFor ["#a"; "#b"; "#c"]%string)
    = Returned "#b"%string.
Proof.
  cbv zeta. split; [discriminate|].
  destruct (proj1 (C9_selector_fallback_raced false initialMetrics (Some 15000)
                     (fun (s : string) (t : Z) =>
                        {| found := String.eqb s "#b"; took := if String.eqb s "#b" then 120 else t |})
                     ["#a"; "#b"; "#c"]%string ltac:(discriminate))
             ["#a"]%string "#b"%string ["#c"]%string eq_refl
             ltac:(repeat constructor) eq_refl) as [Hcalls [Hok _]].
  split; [exact Hcalls|]. apply Hok. vm_compute. reflexivity.
Defined.

End SelectorFacts.

(* ------------------------------------------------------------------------ *)
(** * Further properties of the retriers *)

Module RetryScheduleFacts.
Import Retry Schedule.

Section Loops.
Context {A : Type} (fn : Z -> settle A).

Lemma withRetry_loop_success o (v : A) (r : Z -> reason) :
  forall (n : nat) a e fuel,
  (1 <= n)%nat -> a + Z.of_nat n - 1 <= maxRetries o -> (n <= fuel)%nat ->
  (forall i, a <= i < a + Z.of_nat n - 1 -> fn i = Reject (r i)) ->
  fn (a + Z.of_nat n - 1) = Resolve v ->
  withRetry_loop fn o fuel a e = (retrySchedule o a n, Returned v).
Proof.
  induction n as [|n IH]; intros a e fuel Hn Hmax Hfuel Hrej Hok; [lia|].
  destruct fuel as [|fuel]; [lia|].
  simpl. replace (a <=? maxRetries o) with true by (symmetry; apply Z.leb_le; lia).
  destruct n as [|n'].
  - replace (a + Z.of_nat 1 - 1) with a in Hok by lia. rewrite Hok. reflexivity.
  - rewrite (Hrej a) by lia.
    replace (a =? maxRetries o) with false by (symmetry; apply Z.eqb_neq; lia).
    assert (Hrej' : forall i, a + 1 <= i < a + 1 + Z.of_nat (S n') - 1 -> fn i = Reject (r i))
      by (intros i Hi; apply Hrej; lia).
    assert (Hok' : fn (a + 1 + Z.of_nat (S n') - 1) = Resolve v)
      by (rewrite <- Hok; f_equal; lia).
    rewrite (IH (a + 1) (toError (r a)) fuel) by (assumption || lia).
    reflexivity.
Qed.

Lemma withRetry_loop_exhausted o (r : Z -> reason) :
  forall (n : nat) a e fuel,
  (1 <= n)%nat -> a + Z.of_nat n - 1 = maxRetries o -> (n <= fuel)%nat ->
  (forall i, a <= i <= maxRetries o -> fn i = Reject (r i)) ->
  withRetry_loop fn o fuel a e
    = (retrySchedule o a n, Thrown (RError (toError (r (maxRetries o))))).
Proof.
  induction n as [|n IH]; intros a e fuel Hn Hmax Hfuel Hrej; [lia|].
  destruct fuel as [|fuel]; [lia|].
  simpl. replace (a <=? maxRetries o) with true by (symmetry; apply Z.leb_le; lia).
  rewrite (Hrej a) by lia.
  destruct n as [|n'].
  - replace (a =? maxRetries o) with true by (symmetry; apply Z.eqb_eq; lia).
    replace a with (maxRetries o) by lia. reflexivity.
  - replace (a =? maxRetries o) with false by (symmetry; apply Z.eqb_neq; lia).
    assert (Hrej' : forall i, a + 1 <= i <= maxRetries o -> fn i = Reject (r i))
      by (intros i Hi; apply Hrej; lia).
    rewrite (IH (a + 1) (toError (r a)) fuel) by (assumption || lia).
    reflexivity.
Qed.

Lemma withRetry_loop_shape o :
  forall fuel a e, 1 <= a -> Z.of_nat fuel = maxRetries o - a + 1 ->
  exists n, (n <= fuel)%nat /\ fst (withRetry_loop fn o fuel a e) = retrySchedule o a n.
Proof.
  induction fuel as [|fuel IH]; intros a e Ha Hf; [exists O; split; [lia|reflexivity]|].
  simpl. replace (a <=? maxRetries o) with true by (symmetry; apply Z.leb_le; lia).
  destruct (fn a) as [v|r]; [exists 1%nat; split; [lia|reflexivity]|].
  destruct (a =? maxRetries o) eqn:Heq; [exists 1%nat; split; [lia|reflexivity]|].
  apply Z.eqb_neq in Heq.
  destruct (IH (a + 1) (toError r)) as [n [Hn Hs]]; [lia|lia|].
  destruct (withRetry_loop fn o fuel (a + 1) (toError r)) as [tr res] eqn:E.
  simpl in Hs |- *. subst tr.
  destruct n as [|n'].
  - destruct fuel as [|fuel']; [lia|].
    simpl in E. replace (a + 1 <=? maxRetries o) with true in E
      by (symmetry; apply Z.leb_le; lia).
    destruct (fn (a + 1)); [discriminate E|].
    destruct (a + 1 =? maxRetries o); [discriminate E|].
    destruct (withRetry_loop fn o fuel' (a + 1 + 1) _); discriminate E.
  - exists (S (S n')). split; [lia|reflexivity].
Qed.

Lemma restartStep_escapes a x rl te :
  restartStep a x = (rl, Some te) ->
  rl = [ERestart a] /\ te = ReplaceTypeError /\
  exists e, x = RestartFail e /\ loggerErrorThrows e = Some te.
Proof.
  destruct x as [|e]; cbn [restartStep]; [discriminate|].
  destruct (loggerErrorThrows e) as [te'|] eqn:E; [|discriminate].
  intro H. injection H as <- <-. split; [reflexivity|]. split.
  - destruct e; try discriminate E. injection E as <-. reflexivity.
  - exists e. split; [reflexivity|exact E].
Qed.

Lemma withBrowserRestart_loop_success rs max (v : A) (r : Z -> reason) :
  forall (n : nat) a e fuel,
  (1 <= n)%nat -> a + Z.of_nat n - 1 <= max -> (n <= fuel)%nat ->
  (forall i, a <= i < a + Z.of_nat n - 1 -> fn i = Reject (r i)) ->
  (forall i, a <= i < a + Z.of_nat n - 1 -> snd (restartStep i (rs i)) = None) ->
  fn (a + Z.of_nat n - 1) = Resolve v ->
  withBrowserRestart_loop fn rs max fuel a e = (restartSchedule rs a n, Returned v).
Proof.
  induction n as [|n IH]; intros a e fuel Hn Hmax Hfuel Hrej Hno Hok; [lia|].
  destruct fuel as [|fuel]; [lia|].
  cbn [withBrowserRestart_loop]. replace (a <=? max) with true by (symmetry; apply Z.leb_le; lia).
  destruct n as [|n'].
  - replace (a + Z.of_nat 1 - 1) with a in Hok by lia. rewrite Hok. reflexivity.
  - rewrite (Hrej a) by lia.
    replace (a =? max) with false by (symmetry; apply Z.eqb_neq; lia).
    assert (Hrej' : forall i, a + 1 <= i < a + 1 + Z.of_nat (S n') - 1 -> fn i = Reject (r i))
      by (intros i Hi; apply Hrej; lia).
    assert (Hno' : forall i, a + 1 <= i < a + 1 + Z.of_nat (S n') - 1 ->
                     snd (restartStep i (rs i)) = None)
      by (intros i Hi; apply Hno; lia).
    assert (Hok' : fn (a + 1 + Z.of_nat (S n') - 1) = Resolve v)
      by (rewrite <- Hok; f_equal; lia).
    pose proof (Hno a ltac:(lia)) as Ha.
    destruct (restartStep a (rs a)) as [rl esc] eqn:Er. cbn [snd] in Ha. subst esc.
    rewrite (IH (a + 1) (toError (r a)) fuel) by (assumption || lia).
    change (restartSchedule rs a (S (S n')))
      with (EInvoke a :: restartLog rs a ++ ESleep (cfgBaseDelay retryConfig)
              :: restartSchedule rs (a + 1) (S n')).
    unfold restartLog. rewrite Er. reflexivity.
Qed.

Lemma withBrowserRestart_loop_shape rs max :
  forall fuel a e, 1 <= a -> Z.of_nat fuel = max - a + 1 ->
  exists n, (n <= fuel)%nat /\
    (fst (withBrowserRestart_loop fn rs max fuel a e) = restartSchedule rs a n \/
     exists te, (1 <= n)%nat /\
       snd (restartStep (a + Z.of_nat n - 1) (rs (a + Z.of_nat n - 1))) = Some te /\
       withBrowserRestart_loop fn rs max fuel a e
       = (restartSchedule rs a n ++ [ERestart (a + Z.of_nat n - 1)], Thrown (RError te))).
Proof.
  induction fuel as [|fuel IH]; intros a e Ha Hf;
    [exists O; split; [lia|left; reflexivity]|].
  cbn [withBrowserRestart_loop]. replace (a <=? max) with true by (symmetry; apply Z.leb_le; lia).
  destruct (fn a) as [v|r]; [exists 1%nat; split; [lia|left; reflexivity]|].
  destruct (a =? max) eqn:Heq; [exists 1%nat; split; [lia|left; reflexivity]|].
  apply Z.eqb_neq in Heq.
  destruct (restartStep a (rs a)) as [rl [te|]] eqn:Er.
  - exists 1%nat. split; [lia|right]. exists te.
    destruct (restartStep_escapes _ _ _ _ Er) as [-> _].
    replace (a + Z.of_nat 1 - 1) with a by lia.
    rewrite Er. split; [lia|split; reflexivity].
  - destruct (IH (a + 1) (toError r)) as [n [Hn Hs]]; [lia|lia|].
    assert (Hne : fst (withBrowserRestart_loop fn rs max fuel (a + 1) (toError r)) <> []).
    { destruct fuel as [|fuel']; [lia|].
      cbn [withBrowserRestart_loop]. replace (a + 1 <=? max) with true
        by (symmetry; apply Z.leb_le; lia).
      destruct (fn (a + 1)); [discriminate|].
      destruct (a + 1 =? max); [discriminate|].
      destruct (restartStep (a + 1) (rs (a + 1))) as [rl' [te'|]]; [discriminate|].
      destruct (withBrowserRestart_loop fn rs max fuel' (a + 1 + 1) _); discriminate. }
    destruct n as [|n'].
    + exfalso. destruct Hs as [Hs|[te [Hle _]]]; [|lia]. apply Hne. exact Hs.
    + exists (S (S n')). split; [lia|].
      change (restartSchedule rs a (S (S n')))
        with (EInvoke a :: restartLog rs a ++ ESleep (cfgBaseDelay retryConfig)
                :: restartSchedule rs (a + 1) (S n')).
      unfold restartLog. rewrite Er. cbn [fst].
      destruct Hs as [Hs|[te [Hle [Hesc Hrun]]]].
      * left. destruct (withBrowserRestart_loop fn rs max fuel (a + 1) (toError r)) as [tr res].
        cbn [fst] in Hs |- *. rewrite Hs. reflexivity.
      * right. exists te. split; [lia|].
        replace (a + Z.of_nat (S (S n')) - 1) with (a + 1 + Z.of_nat (S n') - 1) by lia.
        split; [exact Hesc|]. rewrite Hrun. cbn [app]. rewrite <- app_assoc. reflexivity.
Qed.

End Loops.

End RetryScheduleFacts.

Module ScheduleLemmas.
Import Retry Schedule.

Lemma retrySchedule_sleeps o : forall n a d,
  In (ESleep d) (retrySchedule o a n) -> d = backoffDelay o a \/ d <= maxDelay o.
Proof.
  induction n as [|n IH]; intros a d Hin; [destruct Hin|].
  destruct n as [|n'].
  - destruct Hin as [H|[]]; discriminate H.
  - destruct Hin as [H|[H|Hin]]; [discriminate H| |].
    + injection H as <-. left; reflexivity.
    + destruct (IH (a + 1) d Hin) as [->|Hle]; right; [apply Z.le_min_r|exact Hle].
Qed.

Lemma retrySchedule_delays_capped o n a d :
  In (ESleep d) (retrySchedule o a n) -> d <= maxDelay o.
Proof.
  intro Hin. destruct (retrySchedule_sleeps o n a d Hin) as [->|H]; [apply Z.le_min_r|exact H].
Qed.

Lemma retrySchedule_invokes o : forall n a,
  filter UpdateResume.isInvoke (retrySchedule o a n)
  = map (fun i => EInvoke (a + Z.of_nat i)) (seq 0 n).
Proof.
  induction n as [|n IH]; intros a; [reflexivity|].
  destruct n as [|n'].
  - simpl. rewrite Z.add_0_r. reflexivity.
  - change (filter UpdateResume.isInvoke (retrySchedule o a (S (S n'))))
      with (EInvoke a :: filter UpdateResume.isInvoke (retrySchedule o (a + 1) (S n'))).
    rewrite IH. change (seq 0 (S (S n'))) with (0%nat :: seq 1 (S n')).
    rewrite <- seq_shift. cbn [map]. rewrite map_map, Z.add_0_r.
    f_equal. apply map_ext. intro i. f_equal. lia.
Qed.

Lemma restartSchedule_counts rs : forall n a,
  List.length (filter isRestart (restartSchedule rs a n)) = (n - 1)%nat /\
  List.length (filter UpdateResume.isInvoke (restartSchedule rs a n)) = n /\
  (forall d, In (ESleep d) (restartSchedule rs a n) -> d = cfgBaseDelay retryConfig).
Proof.
  induction n as [|n IH]; intros a; [split; [reflexivity|split; [reflexivity|intros d []]]|].
  destruct n as [|n'].
  - split; [reflexivity|split; [reflexivity|]]. intros d [H|[]]; discriminate H.
  - destruct (IH (a + 1)) as [Hr [Hi Hs]].
    change (restartSchedule rs a (S (S n')))
      with (EInvoke a :: restartLog rs a ++ ESleep (cfgBaseDelay retryConfig)
              :: restartSchedule rs (a + 1) (S n')).
    unfold restartLog; destruct (rs a) as [|e]; cbn [restartStep];
      [|destruct (loggerErrorThrows e)];
      cbn [fst filter app isRestart UpdateResume.isInvoke List.length];
      (split; [rewrite Hr; lia|split; [rewrite Hi; lia|]]);
      intros d Hin; cbn [In app] in Hin; repeat destruct Hin as [Hin|Hin];
      try discriminate Hin; try (injection Hin as <-; reflexivity); apply Hs; exact Hin.
Qed.

End ScheduleLemmas.

Module RetryExtras.
Import Retry Schedule RetryScheduleFacts ScheduleLemmas.

(** withRetry: when attempts [1 .. k-1] reject and attempt [k] resolves
    ([k <= maxRetries]), the value of attempt [k] is returned after exactly
    [k] invocations, with the backoff delay after each failed one. *)
Theorem withRetry_success_at {A} (fn : Z -> settle A) o (r : Z -> reason) k v :
  1 <= k <= maxRetries o ->
  (forall i, 1 <= i < k -> fn i = Reject (r i)) -> fn k = Resolve v ->
  withRetry fn o = (retrySchedule o 1 (Z.to_nat k), Returned v).
Proof.
  intros Hk Hrej Hok. unfold withRetry.
  apply (withRetry_loop_success fn o v r); try lia.
  - intros i Hi; apply Hrej; lia.
  - rewrite <- Hok; f_equal; lia.
Qed.

Lemma withRetry_success_at_witness :
  (1 <= 3 <= maxRetries policy3 /\
   (forall i, 1 <= i < 3 ->
      (fun i => if Z.eqb i 3 then Resolve tt else Reject (RValue "e")) i = Reject (RValue "e")) /\
   (fun i => if Z.eqb i 3 then Resolve tt else Reject (RValue "e")) 3 = Resolve tt) /\
  withRetry (fun i => if Z.eqb i 3 then Resolve tt else Reject (RValue "e")) policy3
    = ([EInvoke 1; ESleep 2000; EInvoke 2; ESleep 4000; EInvoke 3], Returned tt).
Proof.
  assert (Hrej : forall i, 1 <= i < 3 ->
      (fun i => if Z.eqb i 3 then Resolve tt else Reject (RValue "e")) i = Reject (RValue "e"))
    by (intros i Hi; simpl; replace (Z.eqb i 3) with false by (symmetry; apply Z.eqb_neq; lia);
        reflexivity).
  split; [split; [simpl; lia|split; [exact Hrej|reflexivity]]|].
  exact (withRetry_success_at (fun i => if Z.eqb i 3 then Resolve tt else Reject (RValue "e"))
           policy3 (fun _ => RValue "e") 3 tt ltac:(simpl; lia) Hrej eq_refl).
Defined.

(** withRetry: when every attempt rejects and [maxRetries >= 1], the action
    is invoked exactly [maxRetries] times and the last reason (as an
    [Error]) is thrown. *)
Theorem withRetry_exhausted {A} (fn : Z -> settle A) o (r : Z -> reason) :
  1 <= maxRetries o ->
  (forall i, 1 <= i <= maxRetries o -> fn i = Reject (r i)) ->
  withRetry fn o
    = (retrySchedule o 1 (Z.to_nat (maxRetries o)),
       Thrown (RError (toError (r (maxRetries o))))).
Proof.
  intros Hm Hrej. unfold withRetry.
  apply (withRetry_loop_exhausted fn o r); (assumption || lia).
Qed.

Lemma withRetry_exhausted_witness :
  let o := {| maxRetries := 5; baseDelay := 2000; maxDelay := 10000; backoffMultiplier := 2 |} in
  (1 <= maxRetries o /\
   (forall i, 1 <= i <= maxRetries o -> (fun _ : Z => Reject (A := unit) (RValue "e")) i
                                         = Reject (RValue "e"))) /\
  withRetry (A := unit) (fun _ => Reject (RValue "e")) o
    = ([EInvoke 1; ESleep 2000; EInvoke 2; ESleep 4000; EInvoke 3; ESleep 8000;
        EInvoke 4; ESleep 10000; EInvoke 5], Thrown (RError (NewError "e"))).
Proof.
  cbv zeta. split; [split; [simpl; lia|intros; reflexivity]|].
  exact (withRetry_exhausted (A := unit) (fun _ => Reject (RValue "e"))
           {| maxRetries := 5; baseDelay := 2000; maxDelay := 10000; backoffMultiplier := 2 |}
           (fun _ => RValue "e") ltac:(simpl; lia) (fun i _ => eq_refl)).
Defined.

(** withRetry, for any action and options: the invocations are attempts
    [1, 2, ..., n] for some [n <= maxRetries] (none when [maxRetries <= 0]),
    with one delay between consecutive invocations and none after the last,
    and every delay is at most [maxDelay]. *)
Theorem withRetry_bounded {A} (fn : Z -> settle A) o :
  exists n, (n <= Z.to_nat (maxRetries o))%nat /\
    fst (withRetry fn o) = retrySchedule o 1 n /\
    filter UpdateResume.isInvoke (fst (withRetry fn o))
      = map (fun i => EInvoke (1 + Z.of_nat i)) (seq 0 n) /\
    (forall d, In (ESleep d) (fst (withRetry fn o)) -> d <= maxDelay o).
Proof.
  assert (Hs : exists n, (n <= Z.to_nat (maxRetries o))%nat /\
                 fst (withRetry fn o) = retrySchedule o 1 n).
  { unfold withRetry. destruct (Z.le_gt_cases (maxRetries o) 0) as [Hle|Hgt].
    - replace (Z.to_nat (maxRetries o)) with O by lia.
      exists O; split; [lia|reflexivity].
    - apply withRetry_loop_shape; lia. }
  destruct Hs as [n [Hn Hs]]. exists n. rewrite Hs.
  split; [exact Hn|]. split; [reflexivity|]. split; [apply retrySchedule_invokes|].
  apply retrySchedule_delays_capped.
Qed.

(** withBrowserRestart, for any workflow, restart callback and bound: the
    workflow runs as attempts [1 .. n] for some [n <= maxRetries], and every
    delay is the fixed base delay (2000ms).  Either the restart callback runs
    exactly [n - 1] times, once between consecutive attempts and never after
    the last; or the [n]-th restart failed with a value whose logging throws,
    the callback ran [n] times and that [TypeError] is the result. *)
Theorem withBrowserRestart_bounded {A} (fn : Z -> settle A) rs max :
  exists n, (n <= Z.to_nat max)%nat /\
    List.length (filter UpdateResume.isInvoke (fst (withBrowserRestart fn rs max))) = n /\
    (forall d, In (ESleep d) (fst (withBrowserRestart fn rs max)) -> d = 2000) /\
    ((fst (withBrowserRestart fn rs max) = restartSchedule rs 1 n /\
      List.length (filter isRestart (fst (withBrowserRestart fn rs max))) = (n - 1)%nat) \/
     ((1 <= n)%nat /\
      (exists e, rs (Z.of_nat n) = RestartFail e /\
                 loggerErrorThrows e = Some ReplaceTypeError) /\
      withBrowserRestart fn rs max
      = (restartSchedule rs 1 n ++ [ERestart (Z.of_nat n)], Thrown (RError ReplaceTypeError)) /\
      List.length (filter isRestart (fst (withBrowserRestart fn rs max))) = n)).
Proof.
  assert (Hs : exists n, (n <= Z.to_nat max)%nat /\
    (fst (withBrowserRestart fn rs max) = restartSchedule rs 1 n \/
     exists te, (1 <= n)%nat /\
       snd (restartStep (1 + Z.of_nat n - 1) (rs (1 + Z.of_nat n - 1))) = Some te /\
       withBrowserRestart fn rs max
       = (restartSchedule rs 1 n ++ [ERestart (1 + Z.of_nat n - 1)], Thrown (RError te)))).
  { unfold withBrowserRestart. destruct (Z.le_gt_cases max 0) as [Hle|Hgt].
    - replace (Z.to_nat max) with O by lia. exists O; split; [lia|left; reflexivity].
    - apply withBrowserRestart_loop_shape; lia. }
  destruct Hs as [n [Hn Hs]]. exists n.
  destruct (restartSchedule_counts rs n 1) as [Hr [Hi Hd]].
  split; [exact Hn|].
  destruct Hs as [Hs|[te [H1 [Hesc Hrun]]]].
  - rewrite Hs. split; [exact Hi|]. split; [exact Hd|]. left. split; [reflexivity|exact Hr].
  - replace (1 + Z.of_nat n - 1) with (Z.of_nat n) in Hesc, Hrun by lia.
    destruct (restartStep (Z.of_nat n) (rs (Z.of_nat n))) as [rl esc] eqn:Er.
    cbn [snd] in Hesc. subst esc.
    destruct (restartStep_escapes _ _ _ _ Er) as [_ [-> [e [He Hl]]]].
    rewrite Hrun. cbn [fst]. rewrite !filter_app, !length_app.
    cbn [filter UpdateResume.isInvoke isRestart List.length].
    split; [rewrite Hi; lia|]. split.
    + intros d Hin. apply in_app_or in Hin. destruct Hin as [Hin|[Hin|[]]];
        [apply Hd, Hin|discriminate Hin].
    + right. split; [exact H1|]. split; [exists e; split; assumption|].
      split; [reflexivity|]. rewrite Hr. lia.
Qed.

End RetryExtras.

(* ------------------------------------------------------------------------ *)
(** * The estimator's statistics on reachable states *)

Module EstimatorExtras.
Import AdaptiveTimeout AdaptiveTimeoutFacts.

Lemma successRate_record m t b :
  successRate (recordMeasurement m t b)
  = (inject_Z (Z.of_nat (List.length (lastMeasurements (recordMeasurement m t b))))
     / inject_Z (Z.min 10 (measurementCount m + 1)))%Q.
Proof. unfold recordMeasurement; destruct b; reflexivity. Qed.

Lemma Qdiv_make a b : 0 < b -> (inject_Z a / inject_Z b == a # Z.to_pos b)%Q.
Proof.
  intro Hb. destruct b as [|p|p]; try lia.
  unfold Qeq, Qdiv, Qmult, Qinv, inject_Z; simpl. lia.
Qed.

Lemma Qmake_le a p b q : (a # p <= b # q)%Q <-> a * Zpos q <= b * Zpos p.
Proof. unfold Qle; simpl; tauto. Qed.

Lemma length_lastn {A} n (l : list A) : List.length (lastn n l) = Nat.min n (List.length l).
Proof. unfold lastn; rewrite length_skipn; lia. Qed.

Lemma successDurations_length obs : (List.length (successDurations obs) <= List.length obs)%nat.
Proof.
  induction obs as [|[t b] obs IH]; [reflexivity|].
  unfold successDurations in *; simpl; destruct b; simpl; lia.
Qed.

Lemma successDurations_app obs obs' :
  successDurations (obs ++ obs') = successDurations obs ++ successDurations obs'.
Proof. unfold successDurations; rewrite filter_app, map_app; reflexivity. Qed.

Lemma app_snoc_neq {A} (l : list A) x : l ++ [x] <> [].
Proof. intro H; apply app_eq_nil in H; destruct H as [_ H]; discriminate H. Qed.

(** On a reachable non-initial state, [successRate] is the window length
    over [min(10, measurementCount)]. *)
Lemma reachable_rate obs :
  obs <> [] ->
  (successRate (recordAll initialMetrics obs)
   == Z.of_nat (Nat.min 10 (List.length (successDurations obs)))
      # Z.to_pos (Z.min 10 (Z.of_nat (List.length obs))))%Q.
Proof.
  intro Hne. induction obs as [|x obs _] using rev_ind; [congruence|].
  destruct (recordAll_window (obs ++ [x])) as [Hw _].
  destruct (recordAll_window obs) as [_ Hc].
  rewrite recordAll_snoc in *. rewrite successRate_record, Hw, Hc, length_lastn.
  rewrite Qdiv_make by lia. rewrite length_app. cbn [List.length].
  replace (Z.of_nat (List.length obs + 1)) with (Z.of_nat (List.length obs) + 1) by lia.
  reflexivity.
Qed.

Lemma recordMeasurement_as_snoc obs t b :
  recordMeasurement (recordAll initialMetrics obs) t b = recordAll initialMetrics (obs ++ [(t, b)]).
Proof. rewrite recordAll_snoc; reflexivity. Qed.

(** Estimator, on every state reachable from the initial metrics:
    [successRate] stays between 0 and 1. *)
Theorem successRate_in_unit obs :
  (0 <= successRate (recordAll initialMetrics obs) <= 1)%Q.
Proof.
  destruct obs as [|o obs'] eqn:E; [split; vm_compute; intro H; discriminate H|].
  rewrite <- E. rewrite reachable_rate by (subst; discriminate).
  pose proof (successDurations_length obs) as Hle.
  assert (Hpos : (1 <= List.length obs)%nat) by (subst; simpl; lia).
  change 0%Q with (0 # 1)%Q. change 1%Q with (1 # 1)%Q.
  rewrite !Qmake_le, Z2Pos.id by lia. lia.
Qed.

(** Estimator, on every state reachable from the initial metrics: once ten
    successful measurements have been recorded, [successRate] is [1] for
    ever after, whatever fails later: the window of successes never shrinks
    and the denominator is capped at ten. *)
Theorem successRate_saturates obs obs' :
  (10 <= List.length (successDurations obs))%nat ->
  (successRate (recordAll initialMetrics (obs ++ obs')) == 1)%Q.
Proof.
  intro H10. pose proof (successDurations_length obs) as Hle.
  rewrite reachable_rate.
  2:{ intro E; apply app_eq_nil in E; destruct E as [E _]; subst; simpl in H10; lia. }
  rewrite successDurations_app, !length_app.
  replace (Nat.min 10 (List.length (successDurations obs) + List.length (successDurations obs')))
    with 10%nat by lia.
  replace (Z.min 10 (Z.of_nat (List.length obs + List.length obs'))) with 10 by lia.
  unfold Qeq; reflexivity.
Qed.

Lemma successRate_saturates_witness :
  let obs := repeat (500, true) 10 in
  (10 <= List.length (successDurations obs))%nat /\
  (successRate (recordAll initialMetrics (obs ++ [(0%Z, false); (0%Z, false); (0%Z, false)])) == 1)%Q.
Proof.
  cbv zeta. split; [vm_compute; lia|].
  apply successRate_saturates. vm_compute; lia.
Defined.

(** Estimator, on every state reachable from the initial metrics:
    [averageResponseTime] is the mean of the (at most ten) most recent
    successful durations, and [0] before the first success; failures never
    change it. *)
Theorem averageResponseTime_mean obs :
  averageResponseTime (recordAll initialMetrics obs)
  = match lastn 10 (successDurations obs) with
    | [] => 0%Q
    | lm => (inject_Z (sum_Z lm) / inject_Z (Z.of_nat (List.length lm)))%Q
    end.
Proof.
  induction obs as [|[t b] obs IH] using rev_ind; [reflexivity|].
  destruct (recordAll_window (obs ++ [(t, b)])) as [Hw _].
  rewrite recordAll_snoc in *. cbn [fst snd] in Hw |- *. destruct b.
  - change (averageResponseTime (recordMeasurement (recordAll initialMetrics obs) t true))
      with (let lm := lastMeasurements (recordMeasurement (recordAll initialMetrics obs) t true) in
            (inject_Z (sum_Z lm) / inject_Z (Z.of_nat (List.length lm)))%Q).
    cbv zeta. rewrite Hw.
    destruct (lastn 10 (successDurations (obs ++ [(t, true)]))) eqn:El; [|reflexivity].
    exfalso. apply (f_equal (@List.length Z)) in El.
    rewrite length_lastn, successDurations_snoc, length_app in El. cbn [List.length] in El. lia.
  - change (averageResponseTime (recordMeasurement (recordAll initialMetrics obs) t false))
      with (averageResponseTime (recordAll initialMetrics obs)).
    rewrite IH, successDurations_snoc, app_nil_r. reflexivity.
Qed.

(** Estimator, on every state reachable from the initial metrics: a failed
    measurement never raises [successRate] and a successful one never
    lowers it. *)
Theorem successRate_monotone obs t :
  let m := recordAll initialMetrics obs in
  (successRate (recordMeasurement m t false) <= successRate m)%Q /\
  (successRate m <= successRate (recordMeasurement m t true))%Q.
Proof.
  cbv zeta. rewrite !recordMeasurement_as_snoc.
  rewrite (reachable_rate (obs ++ [(t, false)])), (reachable_rate (obs ++ [(t, true)]))
    by apply app_snoc_neq.
  rewrite !successDurations_snoc, !app_nil_r, !length_app. cbn [List.length].
  destruct obs as [|o obs'] eqn:E.
  - simpl. split; vm_compute; intro H; discriminate H.
  - rewrite <- E. rewrite reachable_rate by (subst; discriminate).
    pose proof (successDurations_length obs) as Hle.
    assert (Hpos : (1 <= List.length obs)%nat) by (subst; simpl; lia).
    rewrite !Qmake_le, !Z2Pos.id by lia.
    set (S := List.length (successDurations obs)) in *.
    set (N := List.length obs) in *.
    rewrite !Nat2Z.inj_min, !Nat2Z.inj_add.
    split; destruct (Nat.le_gt_cases S 9); destruct (Nat.le_gt_cases N 9);
      repeat match goal with
             | |- context [Z.min ?a ?b] =>
                 first [rewrite (Z.min_r a b) by lia | rewrite (Z.min_l a b) by lia]
             end; nia.
Qed.

End EstimatorExtras.

(* ------------------------------------------------------------------------ *)
(** * updateResume and sendTelegramMessage on top of the retriers *)

Module ProcessExtras.
Import Retry Schedule RetryScheduleFacts ScheduleLemmas UpdateResume Notify.

Section Loops.
Context {A : Type} (fn : Z -> settle A).

Lemma withBrowserRestart_loop_exhausted rs max (r : Z -> reason) :
  forall (n : nat) a e fuel,
  (1 <= n)%nat -> a + Z.of_nat n - 1 = max -> (n <= fuel)%nat ->
  (forall i, a <= i <= max -> fn i = Reject (r i)) ->
  (forall i, snd (restartStep i (rs i)) = None) ->
  withBrowserRestart_loop fn rs max fuel a e
    = (restartSchedule rs a n, Thrown (RError (toError (r max)))).
Proof.
  induction n as [|n IH]; intros a e fuel Hn Hmax Hfuel Hrej Hno; [lia|].
  destruct fuel as [|fuel]; [lia|].
  cbn [withBrowserRestart_loop]. replace (a <=? max) with true by (symmetry; apply Z.leb_le; lia).
  rewrite (Hrej a) by lia.
  destruct n as [|n'].
  - replace (a =? max) with true by (symmetry; apply Z.eqb_eq; lia).
    replace a with max by lia. reflexivity.
  - replace (a =? max) with false by (symmetry; apply Z.eqb_neq; lia).
    assert (Hrej' : forall i, a + 1 <= i <= max -> fn i = Reject (r i))
      by (intros i Hi; apply Hrej; lia).
    pose proof (Hno a) as Ha.
    destruct (restartStep a (rs a)) as [rl esc] eqn:Er. cbn [snd] in Ha. subst esc.
    rewrite (IH (a + 1) (toError (r a)) fuel) by (assumption || lia).
    change (restartSchedule rs a (S (S n')))
      with (EInvoke a :: restartLog rs a ++ ESleep (cfgBaseDelay retryConfig)
              :: restartSchedule rs (a + 1) (S n')).
    unfold restartLog. rewrite Er. reflexivity.
Qed.

Lemma restartCallback_swallowed (restarts : Z -> option restartError) i :
  snd (restartStep i (restartCallback (restarts i))) = None.
Proof.
  unfold restartCallback. destruct (restarts i) as [e|]; [|reflexivity].
  destruct (loggerErrorThrows e); reflexivity.
Qed.

Lemma withRetry_loop_returned o : forall fuel a e v,
  snd (withRetry_loop fn o fuel a e) = Returned v ->
  exists k, a <= k <= maxRetries o /\ fn k = Resolve v.
Proof.
  induction fuel as [|fuel IH]; intros a e v H; [discriminate H|].
  simpl in H. destruct (a <=? maxRetries o) eqn:Ha; [|discriminate H].
  apply Z.leb_le in Ha.
  destruct (fn a) as [w|r] eqn:Hf.
  - injection H as ->. exists a; split; [lia|exact Hf].
  - destruct (a =? maxRetries o); [discriminate H|].
    destruct (withRetry_loop fn o fuel (a + 1) (toError r)) as [tr res] eqn:E.
    destruct (IH (a + 1) (toError r) v) as [k [Hk Hfk]]; [rewrite E; exact H|].
    exists k; split; [lia|exact Hfk].
Qed.

End Loops.

Local Open Scope string_scope.

Lemma sapp_assoc (a b c : string) : (a ++ b) ++ c = a ++ b ++ c.
Proof. induction a as [|x a IH]; simpl; [reflexivity|rewrite IH; reflexivity]. Qed.

(** updateResume: when workflow runs [1 .. k-1] fail and run [k] succeeds
    ([k <= 3]), [retryCount] ends at [k], whatever the browser restarts do;
    so the success notification mentions [k - 1] retries. *)
Theorem runProcess_success attempts restarts (r : Z -> reason) k :
  1 <= k <= maxProcessRetries retryConfig ->
  (forall i, 1 <= i < k -> attempts i = Reject (r i)) -> attempts k = Resolve tt ->
  runProcess attempts restarts = (k, Returned tt).
Proof.
  intros Hk Hrej Hok. unfold runProcess, withBrowserRestart.
  assert (Hrej' : forall i, 1 <= i < 1 + Z.of_nat (Z.to_nat k) - 1 -> attempts i = Reject (r i))
    by (intros i Hi; apply Hrej; lia).
  assert (Hok' : attempts (1 + Z.of_nat (Z.to_nat k) - 1) = Resolve tt)
    by (rewrite <- Hok; f_equal; lia).
  rewrite (withBrowserRestart_loop_success attempts (fun i => restartCallback (restarts i)) _ tt r
             (Z.to_nat k) 1)
    by (first [assumption | (intros; apply restartCallback_swallowed)
              | (change (maxProcessRetries retryConfig) with 3 in *; lia)]).
  destruct (restartSchedule_counts (fun i => restartCallback (restarts i)) (Z.to_nat k) 1)
    as [_ [Hi _]].
  rewrite Hi. f_equal. lia.
Qed.

Lemma runProcess_success_witness :
  let attempts := fun i : Z => if Z.eqb i 2 then Resolve tt else Reject (RValue "timeout") in
  (1 <= 2 <= maxProcessRetries retryConfig /\
   (forall i, 1 <= i < 2 -> attempts i = Reject (RValue "timeout")) /\
   attempts 2 = Resolve tt) /\
  runProcess attempts (fun _ => Some (RestartNoMessage "x")) = (2, Returned tt).
Proof.
  cbv zeta.
  assert (Hrej : forall i, 1 <= i < 2 ->
     (fun i : Z => if Z.eqb i 2 then Resolve tt else Reject (RValue "timeout")) i
     = Reject (RValue "timeout"))
    by (intros i Hi; simpl; replace (Z.eqb i 2) with false by (symmetry; apply Z.eqb_neq; lia);
        reflexivity).
  split; [split; [simpl; lia|split; [exact Hrej|reflexivity]]|].
  exact (runProcess_success _ (fun _ => Some (RestartNoMessage "x")) (fun _ => RValue "timeout") 2
           ltac:(simpl; lia) Hrej eq_refl).
Defined.

(** updateResume: when all three workflow runs fail, the last failure is
    thrown as an [Error], [retryCount] is 3, and the failure notification
    built by [handleError] ends with the line reporting 3 retries, whatever
    the caught value. *)
Theorem runProcess_exhausted attempts restarts (r : Z -> reason) :
  (forall i, 1 <= i <= maxProcessRetries retryConfig -> attempts i = Reject (r i)) ->
  runProcess attempts restarts = (3, Thrown (RError (toError (r 3)))) /\
  (forall c, exists pre,
     handleErrorMessage c (fst (runProcess attempts restarts))
     = pre ++ nl ++ "재시도 횟수: " ++ decimal 3 ++ "번 (모든 재시도 실패)").
Proof.
  intro Hrej.
  assert (Hrun : runProcess attempts restarts = (3, Thrown (RError (toError (r 3))))).
  { unfold runProcess, withBrowserRestart.
    rewrite (withBrowserRestart_loop_exhausted attempts (fun i => restartCallback (restarts i)) _ r 3 1)
      by (first [assumption | (intros; apply restartCallback_swallowed) | simpl; lia]).
    destruct (restartSchedule_counts (fun i => restartCallback (restarts i)) 3 1) as [_ [Hi _]].
    rewrite Hi. reflexivity. }
  split; [exact Hrun|]. rewrite Hrun. intro c. cbn [fst].
  destruct c as [m code|m|].
  - exists ("❌ 이력서 업데이트 최종 실패!" ++ nl ++ "이유: " ++ escapeHtml m ++ " (" ++ code ++ ")").
    rewrite !sapp_assoc. reflexivity.
  - exists ("❌ 이력서 업데이트 최종 실패!" ++ nl ++ "이유: " ++ escapeHtml m).
    rewrite !sapp_assoc. reflexivity.
  - exists ("❌ 이력서 업데이트 최종 실패!" ++ nl ++ "이유: " ++ escapeHtml "알 수 없는 오류").
    rewrite !sapp_assoc. reflexivity.
Qed.

Lemma runProcess_exhausted_witness :
  (forall i, 1 <= i <= maxProcessRetries retryConfig ->
     (fun _ : Z => Reject (A := unit) (RValue "boom")) i = Reject (RValue "boom")) /\
  runProcess (fun _ => Reject (RValue "boom")) (fun _ => None)
    = (3, Thrown (RError (NewError "boom"))).
Proof.
  split; [intros; reflexivity|].
  exact (proj1 (runProcess_exhausted (fun _ => Reject (RValue "boom")) (fun _ => None)
                  (fun _ => RValue "boom") (fun i _ => eq_refl))).
Defined.

(** sendTelegramMessage never returns on a non-2xx reply: when it returns
    [b], some fetch among the first three answered with a status in
    [200, 300) and a body that [response.json()] parses to [b]. *)
Theorem sendTelegramMessage_returns_2xx responses b :
  snd (sendTelegramMessage responses) = Returned b ->
  exists k resp, 1 <= k <= 3 /\ responses k = Fetched resp /\
    200 <= status resp < 300 /\ jsonBody resp = Resolve b.
Proof.
  intro H. unfold sendTelegramMessage, withRetry in H.
  destruct (withRetry_loop_returned _ telegramOptions _ 1 _ b H) as [k [Hk Hf]].
  exists k. unfold telegramAttempt in Hf.
  destruct (responses k) as [resp|e]; [|discriminate Hf].
  exists resp. split; [exact Hk|split; [reflexivity|]].
  destruct (Z.leb 200 (status resp) && Z.ltb (status resp) 300)%bool eqn:E.
  - apply andb_true_iff in E. destruct E as [E1 E2].
    apply Z.leb_le in E1. apply Z.ltb_lt in E2. split; [lia|exact Hf].
  - destruct (Z.leb 400 (status resp) && Z.ltb (status resp) 500)%bool; discriminate Hf.
Qed.

Lemma sendTelegramMessage_returns_2xx_witness :
  let ok := {| status := 200; statusText := "OK"; bodyText := Some "{}";
               jsonBody := Resolve "{}" |} in
  let responses := fun k : Z => if Z.eqb k 3 then Fetched ok else Fetched serverError in
  snd (sendTelegramMessage responses) = Returned "{}" /\
  exists k resp, 1 <= k <= 3 /\ responses k = Fetched resp /\
    200 <= status resp < 300 /\ jsonBody resp = Resolve "{}".
Proof.
  cbv zeta. split; [vm_compute; reflexivity|].
  apply sendTelegramMessage_returns_2xx. vm_compute; reflexivity.
Defined.

End ProcessExtras.

(* ------------------------------------------------------------------------ *)
(** * withTimeoutMeasurement and waitForAnySelector *)

Module MeasurementExtras.
Import AdaptiveTimeout AdaptiveTimeoutFacts Retry Measurement Selector.

(** withTimeoutMeasurement: every call counts one measurement; a success
    is recorded with its response time, while a rejection or a timeout
    leaves the window of durations and the average untouched. *)
Theorem withTimeoutMeasurement_bookkeeping {A} m op tm (race : Z -> raced A) rt :
  let '(m', res) := withTimeoutMeasurement m op tm race rt in
  measurementCount m' = measurementCount m + 1 /\
  match res with
  | Returned _ => m' = recordMeasurement m rt true
  | Thrown _ => lastMeasurements m' = lastMeasurements m /\
                averageResponseTime m' = averageResponseTime m
  end.
Proof.
  unfold withTimeoutMeasurement.
  destruct (race _) as [v|r|]; (split; [apply measurementCount_recordMeasurement|]);
    [reflexivity|split; reflexivity|split; reflexivity].
Qed.

(** withTimeoutMeasurement: an explicit timeout of [0] counts as absent; in
    both cases the operation is raced against the adaptive timeout, so a
    timer that fires first is reported as a timeout between 5000 and
    30000ms. *)
Theorem withTimeoutMeasurement_adaptive_timeout {A} m op tm (race : Z -> raced A) rt :
  tm = None \/ tm = Some 0 ->
  race (getAdaptiveTimeout m op) = TimerFired ->
  exists T, 5000 <= T <= 30000 /\
    snd (withTimeoutMeasurement m op tm race rt)
    = Thrown (RError (NewError ("Operation timeout after " ++ Notify.decimal T ++ "ms")%string)).
Proof.
  intros Htm Hr. exists (getAdaptiveTimeout m op). split; [apply adaptive_in_bounds|].
  unfold withTimeoutMeasurement.
  destruct Htm as [->| ->]; cbn [Z.eqb]; rewrite Hr; reflexivity.
Qed.

Lemma withTimeoutMeasurement_adaptive_timeout_witness :
  (Some 0 = None \/ Some 0 = Some 0) /\
  (fun _ : Z => TimerFired (A := unit)) (getAdaptiveTimeout initialMetrics popup) = TimerFired /\
  exists T, 5000 <= T <= 30000 /\
    snd (withTimeoutMeasurement initialMetrics popup (Some 0) (fun _ => TimerFired (A := unit)) 7)
    = Thrown (RError (NewError ("Operation timeout after " ++ Notify.decimal T ++ "ms")%string)).
Proof.
  split; [right; reflexivity|split; [reflexivity|]].
  exact (withTimeoutMeasurement_adaptive_timeout (A := unit) initialMetrics popup (Some 0)
           (fun _ => TimerFired) 7 (or_intror eq_refl) eq_refl).
Defined.

Lemma tryCandidates_prefix waitFor slice : forall cs calls t r,
  tryCandidates waitFor slice cs = (calls, t, r) ->
  exists pre post, cs = pre ++ post /\ calls = map (fun p => (p, slice)) pre.
Proof.
  induction cs as [|c cs IH]; intros calls t r H; cbn [tryCandidates] in H.
  - injection H as <- _ _. exists [], []. split; reflexivity.
  - destruct (found (waitFor c slice)).
    + injection H as <- _ _. exists [c], cs. split; reflexivity.
    + destruct (tryCandidates waitFor slice cs) as [[calls' t'] r'] eqn:E.
      injection H as <- _ _. destruct (IH calls' t' r' eq_refl) as [pre [post [-> ->]]].
      exists (c :: pre), post. split; reflexivity.
Qed.

Lemma sum_const_map {B} (pre : list B) slice :
  fold_right Z.add 0 (map snd (map (fun p => (p, slice)) pre)) = Z.of_nat (List.length pre) * slice.
Proof.
  induction pre as [|p pre IH]; cbn [map fold_right snd List.length]; [reflexivity|].
  rewrite IH, Nat2Z.inj_succ. lia.
Qed.

(** waitForAnySelector: the selectors are tried in order, each at most
    once, and the timeouts given to [waitForSelector] add up to at most the
    budget [options.timeout || adaptive timeout] when it is not negative. *)
Theorem waitForAnySelector_within_budget timerFirst m timeout waitFor cs :
  0 <= resolveBudget timeout (getAdaptiveTimeout m element) ->
  exists pre post, cs = pre ++ post /\
    map fst (snd (fst (waitForAnySelector timerFirst m timeout waitFor cs))) = pre /\
    fold_right Z.add 0 (map snd (snd (fst (waitForAnySelector timerFirst m timeout waitFor cs))))
    <= resolveBudget timeout (getAdaptiveTimeout m element).
Proof.
  intro Hb.
  set (budget := resolveBudget timeout (getAdaptiveTimeout m element)) in *.
  destruct (tryCandidates waitFor (budget / Z.of_nat (List.length cs)) cs)
    as [[calls t] r] eqn:E.
  assert (Hc : snd (fst (waitForAnySelector timerFirst m timeout waitFor cs)) = calls).
  { unfold waitForAnySelector, anySelectorOperation. fold budget. rewrite E.
    cbv beta iota zeta. destruct (withTimeoutMeasurement _ _ _ _ _); reflexivity. }
  rewrite Hc.
  destruct (tryCandidates_prefix _ _ _ _ _ _ E) as [pre [post [Hcs ->]]].
  exists pre, post. split; [exact Hcs|]. split.
  - rewrite map_map. simpl. apply map_id.
  - rewrite sum_const_map.
    assert (Hl : (List.length pre <= List.length cs)%nat) by (rewrite Hcs, length_app; lia).
    destruct (List.length cs) as [|n] eqn:Hn.
    + replace (List.length pre) with O by lia. simpl. exact Hb.
    + pose proof (Z.mul_div_le budget (Z.of_nat (S n)) ltac:(lia)) as Hd.
      pose proof (Z.div_pos budget (Z.of_nat (S n)) Hb ltac:(lia)) as Hp.
      nia.
Qed.

Lemma waitForAnySelector_within_budget_witness :
  0 <= resolveBudget (Some 10000) (getAdaptiveTimeout initialMetrics element) /\
  exists pre post, ["#a"; "#b"; "#c"]%string = pre ++ post /\
    map fst (snd (fst (waitForAnySelector true initialMetrics (Some 10000)
                         (fun _ t => {| found := false; took := t |}) ["#a"; "#b"; "#c"]%string)))
    = pre /\
    fold_right Z.add 0 (map snd (snd (fst (waitForAnySelector true initialMetrics (Some 10000)
                         (fun _ t => {| found := false; took := t |}) ["#a"; "#b"; "#c"]%string))))
    <= resolveBudget (Some 10000) (getAdaptiveTimeout initialMetrics element).
Proof.
  split; [vm_compute; discriminate|]. apply waitForAnySelector_within_budget.
  vm_compute; discriminate.
Defined.

End MeasurementExtras.

(* ------------------------------------------------------------------------ *)
(** * escapeHtml and the failure notification *)

Module HtmlExtras.
Import UpdateResume.
Local Open Scope string_scope.

Lemma escapeHtml_cons c r :
  escapeHtml (String c r)
  = (if Ascii.eqb c "&"%char then "&amp;"
     else if Ascii.eqb c "<"%char then "&lt;"
     else if Ascii.eqb c ">"%char then "&gt;"
     else String c "") ++ escapeHtml r.
Proof.
  unfold escapeHtml. simpl.
  destruct (Ascii.eqb c "&"%char) eqn:E1;
    [apply Ascii.eqb_eq in E1; subst c; reflexivity|].
  simpl. destruct (Ascii.eqb c "<"%char) eqn:E2;
    [apply Ascii.eqb_eq in E2; subst c; reflexivity|].
  simpl. destruct (Ascii.eqb c ">"%char) eqn:E3;
    [apply Ascii.eqb_eq in E3; subst c; reflexivity|].
  reflexivity.
Qed.

Lemma las_app (a b : string) :
  list_ascii_of_string (a ++ b) = app (list_ascii_of_string a) (list_ascii_of_string b).
Proof. induction a as [|x a IH]; simpl; [reflexivity|rewrite IH; reflexivity]. Qed.

Lemma escapeHtml_no_angle s :
  existsb (Ascii.eqb "<"%char) (list_ascii_of_string (escapeHtml s)) = false /\
  existsb (Ascii.eqb ">"%char) (list_ascii_of_string (escapeHtml s)) = false.
Proof.
  induction s as [|c r [IH1 IH2]]; [split; reflexivity|].
  rewrite escapeHtml_cons, las_app, !existsb_app, IH1, IH2, !orb_false_r.
  destruct (Ascii.eqb c "&"%char); [split; reflexivity|].
  destruct (Ascii.eqb c "<"%char) eqn:E2; [split; reflexivity|].
  destruct (Ascii.eqb c ">"%char) eqn:E3; [split; reflexivity|].
  cbn [list_ascii_of_string existsb]. rewrite !orb_false_r. split.
  - rewrite Ascii.eqb_sym. exact E2.
  - rewrite Ascii.eqb_sym. exact E3.
Qed.

(** escapeHtml: the output never contains [<] or [>], and a text without
    [&], [<] and [>] is left unchanged. *)
Theorem escapeHtml_safe s :
  existsb (Ascii.eqb "<"%char) (list_ascii_of_string (escapeHtml s)) = false /\
  existsb (Ascii.eqb ">"%char) (list_ascii_of_string (escapeHtml s)) = false /\
  (existsb (fun c => Ascii.eqb c "&"%char || Ascii.eqb c "<"%char || Ascii.eqb c ">"%char)%bool
     (list_ascii_of_string s) = false -> escapeHtml s = s).
Proof.
  destruct (escapeHtml_no_angle s) as [H1 H2]. split; [exact H1|split; [exact H2|]].
  clear H1 H2. induction s as [|c r IH]; intro H; [reflexivity|].
  simpl in H. apply orb_false_iff in H. destruct H as [Hc Hr].
  apply orb_false_iff in Hc. destruct Hc as [Hc E3]. apply orb_false_iff in Hc.
  destruct Hc as [E1 E2].
  rewrite escapeHtml_cons, E1, E2, E3, (IH Hr). reflexivity.
Qed.

Ltac esc_cases c E1 E2 E3 :=
  destruct (Ascii.eqb c "&"%char) eqn:E1;
  [apply Ascii.eqb_eq in E1; subst c
  |destruct (Ascii.eqb c "<"%char) eqn:E2;
   [apply Ascii.eqb_eq in E2; subst c
   |destruct (Ascii.eqb c ">"%char) eqn:E3; [apply Ascii.eqb_eq in E3; subst c|]]].

(** escapeHtml is injective: two different texts are never escaped to the
    same HTML. *)
Theorem escapeHtml_injective s1 s2 : escapeHtml s1 = escapeHtml s2 -> s1 = s2.
Proof.
  revert s2. induction s1 as [|c1 r1 IH]; intros [|c2 r2] H.
  - reflexivity.
  - exfalso. rewrite escapeHtml_cons in H. esc_cases c2 E1 E2 E3; discriminate H.
  - exfalso. rewrite escapeHtml_cons in H. esc_cases c1 E1 E2 E3; discriminate H.
  - rewrite !escapeHtml_cons in H.
    esc_cases c1 E1 E2 E3; esc_cases c2 F1 F2 F3; cbn [String.append] in H;
      inversion H; subst;
      try (f_equal; apply IH; assumption);
      try (rewrite Ascii.eqb_refl in *; discriminate).
Qed.

Lemma escapeHtml_injective_witness :
  escapeHtml "a<b&" = escapeHtml "a<b&" /\ "a<b&" = "a<b&".
Proof. split; [reflexivity|]. apply escapeHtml_injective. reflexivity. Defined.

End HtmlExtras.

Module NotificationExtras.
Import UpdateResume HtmlExtras.
Local Open Scope string_scope.

Lemma decimal_aux_no_char (d : Ascii.ascii) :
  (Ascii.nat_of_ascii d < 48 \/ 57 < Ascii.nat_of_ascii d)%nat ->
  forall fuel n acc,
  existsb (Ascii.eqb d) (list_ascii_of_string acc) = false ->
  existsb (Ascii.eqb d) (list_ascii_of_string (Notify.decimal_aux fuel n acc)) = false.
Proof.
  intros Hd fuel. induction fuel as [|fuel IH]; intros n acc Hacc; [exact Hacc|].
  assert (Hch : existsb (Ascii.eqb d)
                  (list_ascii_of_string
                     (String (Ascii.ascii_of_nat (48 + Z.to_nat (n mod 10))) acc)) = false).
  { cbn [list_ascii_of_string existsb]. rewrite Hacc, orb_false_r.
    destruct (Ascii.eqb_spec d (Ascii.ascii_of_nat (48 + Z.to_nat (n mod 10)))) as [E|E];
      [|reflexivity].
    exfalso. pose proof (Z.mod_pos_bound n 10 ltac:(lia)) as Hb.
    apply (f_equal Ascii.nat_of_ascii) in E.
    rewrite Ascii.nat_ascii_embedding in E by lia. lia. }
  simpl. destruct (Z.ltb n 10); [exact Hch|]. apply IH. exact Hch.
Qed.

Lemma decimal_no_angle n :
  existsb (Ascii.eqb "<"%char) (list_ascii_of_string (Notify.decimal n)) = false /\
  existsb (Ascii.eqb ">"%char) (list_ascii_of_string (Notify.decimal n)) = false.
Proof.
  split; apply decimal_aux_no_char; try reflexivity; right; vm_compute; lia.
Qed.

Lemma error_code_no_angle code :
  In code Types.ERROR_CODES ->
  existsb (Ascii.eqb "<"%char) (list_ascii_of_string code) = false /\
  existsb (Ascii.eqb ">"%char) (list_ascii_of_string code) = false.
Proof.
  intro H. unfold Types.ERROR_CODES in H.
  repeat (destruct H as [<-|H]; [split; reflexivity|]). destruct H.
Qed.

(** handleError: the failure notification (sent with [parse_mode] HTML)
    contains no [<] or [>], for any caught value whose code, if it is a
    [JobKoreaError], is one of [ERROR_CODES]: the message is escaped and the
    codes have no angle brackets. *)
Theorem handleErrorMessage_no_angle c n :
  (forall m code, c = CJobKoreaError m code -> In code Types.ERROR_CODES) ->
  existsb (Ascii.eqb "<"%char) (list_ascii_of_string (handleErrorMessage c n)) = false /\
  existsb (Ascii.eqb ">"%char) (list_ascii_of_string (handleErrorMessage c n)) = false.
Proof.
  intro Hcode. unfold handleErrorMessage; cbv zeta.
  destruct (decimal_no_angle n) as [D1 D2].
  destruct c as [m code|m|].
  - destruct (error_code_no_angle code (Hcode m code eq_refl)) as [C1 C2].
    destruct (escapeHtml_no_angle m) as [M1 M2].
    destruct (Z.ltb 0 n); rewrite !las_app, !existsb_app;
      rewrite ?M1, ?M2, ?C1, ?C2, ?D1, ?D2; split; reflexivity.
  - destruct (escapeHtml_no_angle m) as [M1 M2].
    destruct (Z.ltb 0 n); rewrite !las_app, !existsb_app;
      rewrite ?M1, ?M2, ?D1, ?D2; split; reflexivity.
  - destruct (Z.ltb 0 n); rewrite !las_app, !existsb_app;
      rewrite ?D1, ?D2; split; reflexivity.
Qed.

Lemma handleErrorMessage_no_angle_witness :
  (forall m code, CJobKoreaError "<b>login failed</b>" "AUTH_ERROR" = CJobKoreaError m code ->
     In code Types.ERROR_CODES) /\
  existsb (Ascii.eqb "<"%char)
    (list_ascii_of_string (handleErrorMessage
       (CJobKoreaError "<b>login failed</b>" "AUTH_ERROR") 3)) = false /\
  existsb (Ascii.eqb ">"%char)
    (list_ascii_of_string (handleErrorMessage
       (CJobKoreaError "<b>login failed</b>" "AUTH_ERROR") 3)) = false.
Proof.
  assert (H : forall m code,
    CJobKoreaError "<b>login failed</b>" "AUTH_ERROR" = CJobKoreaError m code ->
     In code Types.ERROR_CODES)
    by (intros m code E; injection E as _ <-; left; reflexivity).
  split; [exact H|]. exact (handleErrorMessage_no_angle _ 3 H).
Defined.

End NotificationExtras.

(* ------------------------------------------------------------------------ *)
(** * The configuration validators *)

Module ValidationExtras.
Import Validation.
Local Open Scope string_scope.

Lemma slen s : String.length s = List.length (list_ascii_of_string s).
Proof. induction s as [|c s IH]; simpl; [reflexivity|rewrite IH; reflexivity]. Qed.

Lemma forallb_dropWs l : forallb isWs (dropWs l) = forallb isWs l.
Proof.
  induction l as [|c l IH]; [reflexivity|]. simpl.
  destruct (isWs c) eqn:E; [exact IH|]. simpl. rewrite E. reflexivity.
Qed.

Lemma dropWs_nil l : dropWs l = [] <-> forallb isWs l = true.
Proof.
  induction l as [|c l IH]; [split; reflexivity|]. simpl.
  destruct (isWs c); [exact IH|]. split; discriminate.
Qed.

Lemma forallb_rev {B} (f : B -> bool) l : forallb f (rev l) = forallb f l.
Proof.
  induction l as [|x l IH]; [reflexivity|]. simpl.
  rewrite forallb_app, IH. simpl. rewrite andb_true_r, andb_comm. reflexivity.
Qed.

Lemma length_string_of_list l : String.length (string_of_list_ascii l) = List.length l.
Proof. induction l as [|c l IH]; simpl; [reflexivity|rewrite IH; reflexivity]. Qed.

(** [s.trim().length === 0] exactly when every character is white space. *)
Lemma trim_empty s : String.length (trim s) = 0%nat <-> forallb isWs (list_ascii_of_string s) = true.
Proof.
  unfold trim. rewrite length_string_of_list, length_rev, length_zero_iff_nil, dropWs_nil,
    forallb_rev, forallb_dropWs. reflexivity.
Qed.

Lemma blank_iff s : blank s = forallb isWs (list_ascii_of_string s).
Proof.
  destruct s as [|c r]; [reflexivity|]. unfold blank. cbn [String.eqb orb].
  destruct (forallb isWs (list_ascii_of_string (String c r))) eqn:E.
  - apply Nat.eqb_eq, trim_empty. exact E.
  - apply Nat.eqb_neq. intro H. apply trim_empty in H. congruence.
Qed.

Lemma forallb_ws_false l : l <> [] -> existsb isWs l = false -> forallb isWs l = false.
Proof.
  destruct l as [|c l]; [congruence|]. intros _ H. simpl in H |- *.
  apply orb_false_iff in H. destruct H as [-> _]. reflexivity.
Qed.

Lemma ascii_range_not_ws c lo hi :
  (13 < lo)%nat -> (hi < 32 \/ 32 < lo)%nat ->
  inRange (Ascii.nat_of_ascii c) lo hi = true -> isWs c = false.
Proof.
  intros Hlo Hhi H. unfold inRange in H. apply andb_true_iff in H.
  destruct H as [H1 H2]. apply Nat.leb_le in H1. apply Nat.leb_le in H2.
  unfold isWs. remember (Ascii.nat_of_ascii c) as k.
  repeat rewrite (proj2 (Nat.eqb_neq k _)) by lia. reflexivity.
Qed.

Lemma digit_not_ws c : isDigit c = true -> isWs c = false.
Proof. apply ascii_range_not_ws; lia. Qed.

Lemma tokenChar_not_ws c : isTokenChar c = true -> isWs c = false.
Proof.
  unfold isTokenChar, isWordChar, isAlpha.
  intro H. repeat (apply orb_true_iff in H; destruct H as [H|H]).
  - apply (ascii_range_not_ws c 65 90); [lia|lia|exact H].
  - apply (ascii_range_not_ws c 97 122); [lia|lia|exact H].
  - apply digit_not_ws; exact H.
  - apply Ascii.eqb_eq in H; subst; reflexivity.
  - apply Ascii.eqb_eq in H; subst; reflexivity.
Qed.

Lemma forallb_not_ws (f : Ascii.ascii -> bool) l :
  (forall c, f c = true -> isWs c = false) -> forallb f l = true -> existsb isWs l = false.
Proof.
  intros Hf. induction l as [|c l IH]; intro H; [reflexivity|].
  simpl in H |- *. apply andb_true_iff in H. destruct H as [Hc Hl].
  rewrite (Hf c Hc), (IH Hl). reflexivity.
Qed.

Lemma tokenRegex_not_blank : forall l b,
  tokenRegex_aux l b = true -> l <> [] /\ existsb isWs l = false.
Proof.
  induction l as [|c l IH]; intros b H; [discriminate H|].
  split; [discriminate|]. simpl in H |- *.
  destruct (isDigit c) eqn:D.
  - rewrite (digit_not_ws c D). apply (IH true). exact H.
  - apply andb_true_iff in H. destruct H as [H Hl].
    apply andb_true_iff in H. destruct H as [H _].
    apply andb_true_iff in H. destruct H as [_ Hc].
    apply Ascii.eqb_eq in Hc. subst c. cbn.
    apply (forallb_not_ws isTokenChar); [exact tokenChar_not_ws|exact Hl].
Qed.

Lemma chatIdRegex_not_blank s :
  telegramChatIdRegex s = true -> blank s = false.
Proof.
  rewrite blank_iff. unfold telegramChatIdRegex.
  destruct (list_ascii_of_string s) as [|c r]; [discriminate|]. intro H.
  simpl. apply andb_false_iff. left.
  destruct (Ascii.eqb c "-"%char) eqn:E1; [apply Ascii.eqb_eq in E1; subst; reflexivity|].
  destruct (Ascii.eqb c "@"%char) eqn:E2; [apply Ascii.eqb_eq in E2; subst; reflexivity|].
  unfold allDigits1 in H. apply andb_true_iff in H. destruct H as [_ H].
  simpl in H. apply andb_true_iff in H. destruct H as [H _]. apply digit_not_ws. exact H.
Qed.

Ltac ltb_facts :=
  repeat match goal with
         | H : Nat.ltb _ _ = true |- _ => apply Nat.ltb_lt in H
         | H : Nat.ltb _ _ = false |- _ => apply Nat.ltb_ge in H
         end.

Ltac validator_cases :=
  cbn [app]; ltb_facts; split; intro;
  try discriminate;
  try (repeat split; first [lia | reflexivity | assumption]);
  try (exfalso; repeat match goal with
                       | H : _ /\ _ |- _ => destruct H
                       end; first [lia | congruence]).

Lemma validateJobKoreaId_nil id :
  validateJobKoreaId id = [] <-> (3 <= String.length id <= 50)%nat /\ hasWs id = false.
Proof.
  unfold validateJobKoreaId. destruct (blank id) eqn:B.
  - split; [discriminate|]. intros [Hl Hw]. exfalso.
    rewrite blank_iff, forallb_ws_false in B; [discriminate B| |exact Hw].
    intro E. rewrite slen, E in Hl. simpl in Hl. lia.
  - destruct (Nat.ltb (String.length id) 3) eqn:L1;
    destruct (Nat.ltb 50 (String.length id)) eqn:L2;
    destruct (hasWs id) eqn:W; validator_cases.
Qed.

Lemma validateJobKoreaPassword_nil pwd :
  validateJobKoreaPassword pwd = [] <->
  (4 <= String.length pwd <= 100)%nat /\ blank pwd = false.
Proof.
  unfold validateJobKoreaPassword. destruct (blank pwd) eqn:B.
  - split; [discriminate|]. intros [_ H]; discriminate H.
  - destruct (Nat.ltb (String.length pwd) 4) eqn:L1;
    destruct (Nat.ltb 100 (String.length pwd)) eqn:L2; validator_cases.
Qed.

Lemma validateTelegramToken_nil tok :
  validateTelegramToken tok = [] <->
  telegramTokenRegex tok = true /\ (20 <= String.length tok <= 100)%nat.
Proof.
  unfold validateTelegramToken. destruct (blank tok) eqn:B.
  - split; [discriminate|]. intros [Hr _]. exfalso.
    destruct (tokenRegex_not_blank _ _ Hr) as [Hne Hw].
    rewrite blank_iff, forallb_ws_false in B; [discriminate B|exact Hne|exact Hw].
  - destruct (telegramTokenRegex tok) eqn:R;
    destruct (Nat.ltb (String.length tok) 20) eqn:L1;
    destruct (Nat.ltb 100 (String.length tok)) eqn:L2; cbn [negb]; validator_cases.
Qed.

Lemma validateTelegramChatId_nil cid :
  validateTelegramChatId cid = [] <-> telegramChatIdRegex cid = true.
Proof.
  unfold validateTelegramChatId. destruct (telegramChatIdRegex cid) eqn:R.
  - rewrite (chatIdRegex_not_blank cid R). split; reflexivity.
  - destruct (blank cid); split; discriminate.
Qed.

Lemma nil_app_iff {B} (a b : list B) : app a b = [] <-> a = [] /\ b = [].
Proof. split; [apply app_eq_nil|intros [-> ->]; reflexivity]. Qed.

Lemma validateConfig_errors_nil cfg :
  isValid (validateConfig cfg) = true <->
  validateJobKoreaId (jobkoreaId cfg) = [] /\ validateJobKoreaPassword (jobkoreaPwd cfg) = [] /\
  validateTelegramToken (telegramToken cfg) = [] /\ validateTelegramChatId (telegramChatId cfg) = [].
Proof.
  unfold validateConfig; cbn [isValid]. rewrite Nat.eqb_eq, length_zero_iff_nil, !nil_app_iff.
  reflexivity.
Qed.

(** validateConfig: the configuration is valid exactly when the JobKorea id
    has 3 to 50 characters and no white space, the password has 4 to 100
    characters and is not all white space, the bot token matches
    [^\d+:[A-Za-z0-9_-]+$] with 20 to 100 characters, and the chat id is a
    (possibly negative) number or an [@username] of 5 to 32 characters. *)
Theorem validateConfig_valid_iff cfg :
  isValid (validateConfig cfg) = true <->
  ((3 <= String.length (jobkoreaId cfg) <= 50)%nat /\ hasWs (jobkoreaId cfg) = false) /\
  ((4 <= String.length (jobkoreaPwd cfg) <= 100)%nat /\
   existsb (fun c => negb (isWs c)) (list_ascii_of_string (jobkoreaPwd cfg)) = true) /\
  (telegramTokenRegex (telegramToken cfg) = true /\
   (20 <= String.length (telegramToken cfg) <= 100)%nat) /\
  telegramChatIdRegex (telegramChatId cfg) = true.
Proof.
  rewrite validateConfig_errors_nil, validateJobKoreaId_nil, validateJobKoreaPassword_nil,
    validateTelegramToken_nil, validateTelegramChatId_nil, blank_iff.
  assert (Hneg : forall l, forallb isWs l = false <-> existsb (fun c => negb (isWs c)) l = true).
  { induction l as [|c l IH]; [split; discriminate|]. simpl.
    destruct (isWs c); simpl; [exact IH|split; reflexivity]. }
  rewrite Hneg. reflexivity.
Qed.

(** validateConfig is stricter than the [isValidConfig] type guard: a
    configuration it accepts has four non-empty fields. *)
Theorem validateConfig_implies_isValidConfig cfg :
  isValid (validateConfig cfg) = true -> isValidConfig cfg = true.
Proof.
  rewrite validateConfig_errors_nil, validateJobKoreaId_nil, validateJobKoreaPassword_nil,
    validateTelegramToken_nil, validateTelegramChatId_nil.
  intros [[Hid _] [[Hpw _] [[_ Htok] Hchat]]].
  unfold isValidConfig.
  assert (Hc : (0 < String.length (telegramChatId cfg))%nat).
  { rewrite slen. unfold telegramChatIdRegex in Hchat.
    destruct (list_ascii_of_string (telegramChatId cfg)); [discriminate Hchat|simpl; lia]. }
  repeat (apply andb_true_iff; split); apply Nat.ltb_lt; lia.
Qed.

Lemma validateConfig_implies_isValidConfig_witness :
  let cfg := {| jobkoreaId := "user01"; jobkoreaPwd := "pass word";
                telegramToken := "123456789:ABCdef_ghi-JKL";
                telegramChatId := "-1001234567" |} in
  isValid (validateConfig cfg) = true /\ isValidConfig cfg = true.
Proof.
  cbv zeta. split; [vm_compute; reflexivity|].
  apply validateConfig_implies_isValidConfig. vm_compute; reflexivity.
Defined.

Lemma flat_map_nil_iff {B C} (f : B -> list C) l :
  flat_map f l = [] <-> Forall (fun x => f x = []) l.
Proof.
  induction l as [|x l IH]; simpl; [split; [constructor|reflexivity]|].
  rewrite nil_app_iff, IH. split; [intros [H1 H2]; constructor; assumption|].
  intro H; inversion H; split; assumption.
Qed.

(** validateEnvironmentVariables: the environment is valid exactly when
    each of [JOBKOREA_ID], [JOBKOREA_PWD], [TELEGRAM_BOT_TOKEN] and
    [TELEGRAM_CHAT_ID] is set to a non-empty value; each missing or empty
    one yields exactly one error. *)
Theorem validateEnvironmentVariables_valid_iff env :
  (isValid (validateEnvironmentVariables env) = true <->
   Forall (fun v => exists s, env v = Some s /\ s <> "") requiredVars) /\
  List.length (errors (validateEnvironmentVariables env))
  = List.length (filter (fun v => match env v with
                                  | Some s => String.eqb s ""
                                  | None => true
                                  end) requiredVars).
Proof.
  unfold validateEnvironmentVariables; cbn [isValid errors]. split.
  - rewrite Nat.eqb_eq, length_zero_iff_nil, flat_map_nil_iff.
    split; intro H; eapply Forall_impl; try exact H; intros v Hv; cbv beta in *.
    + destruct (env v) as [s|]; [|discriminate Hv].
      exists s; split; [reflexivity|]. intro E; subst s; discriminate Hv.
    + destruct Hv as [s [-> Hs]]. apply String.eqb_neq in Hs. rewrite Hs. reflexivity.
  - generalize requiredVars as vs. induction vs as [|v vs IH]; [reflexivity|].
    cbn [flat_map filter]. rewrite length_app, IH.
    destruct (env v) as [s|]; [destruct (String.eqb s ""); reflexivity|reflexivity].
Qed.

End ValidationExtras.

(* ------------------------------------------------------------------------ *)
(** * The MAX_RETRIES override *)

Module ConfigExtras.
Import Retry ConfigEnv.

(** loadEnvironmentOverrides: whatever [MAX_RETRIES] holds (absent, empty,
    not a number, zero or negative), the retry counts stay at least 1 and
    the delays are untouched; so [withRetry] with the configured options
    always runs the operation at least once. *)
Theorem loadRetryOverride_positive maxRetriesEnv r :
  1 <= maxOperationRetries r -> 1 <= maxProcessRetries r ->
  let r' := loadRetryOverride maxRetriesEnv r in
  1 <= maxOperationRetries r' /\ 1 <= maxProcessRetries r' /\
  cfgBaseDelay r' = cfgBaseDelay r /\ cfgMaxDelay r' = cfgMaxDelay r /\
  cfgBackoffMultiplier r' = cfgBackoffMultiplier r /\
  (forall A (fn : Z -> settle A), exists tr,
     fst (withRetry fn (defaultRetryOptions r')) = EInvoke 1 :: tr).
Proof.
  intros H1 H2. cbv zeta.
  assert (Hr : 1 <= maxOperationRetries (loadRetryOverride maxRetriesEnv r) /\
               1 <= maxProcessRetries (loadRetryOverride maxRetriesEnv r) /\
               cfgBaseDelay (loadRetryOverride maxRetriesEnv r) = cfgBaseDelay r /\
               cfgMaxDelay (loadRetryOverride maxRetriesEnv r) = cfgMaxDelay r /\
               cfgBackoffMultiplier (loadRetryOverride maxRetriesEnv r) = cfgBackoffMultiplier r).
  { unfold loadRetryOverride.
    destruct maxRetriesEnv as [s|]; [|repeat split; assumption].
    destruct (String.eqb s ""); [repeat split; assumption|].
    destruct (parseInt10 s) as [n|]; [|repeat split; assumption].
    destruct (Z.ltb 0 n) eqn:E; [|repeat split; assumption].
    apply Z.ltb_lt in E. cbn. repeat split; lia. }
  destruct Hr as [Ho [Hp [Hb [Hm Hk]]]].
  split; [exact Ho|split; [exact Hp|split; [exact Hb|split; [exact Hm|split; [exact Hk|]]]]].
  intros A fn. unfold withRetry, defaultRetryOptions. cbn [maxRetries].
  set (m := maxOperationRetries (loadRetryOverride maxRetriesEnv r)) in *.
  destruct (Z.to_nat m) as [|fuel] eqn:Ef; [lia|].
  cbn [withRetry_loop maxRetries]. replace (1 <=? m) with true by (symmetry; apply Z.leb_le; lia).
  destruct (fn 1) as [v|rr]; [eexists; reflexivity|].
  destruct (1 =? m); [eexists; reflexivity|].
  match goal with |- context [withRetry_loop ?f ?o ?fu ?a ?e] =>
    destruct (withRetry_loop f o fu a e) end; eexists; reflexivity.
Qed.

Lemma loadRetryOverride_positive_witness :
  (1 <= maxOperationRetries retryConfig /\ 1 <= maxProcessRetries retryConfig) /\
  let r' := loadRetryOverride (Some "-2"%string) retryConfig in
  1 <= maxOperationRetries r' /\ 1 <= maxProcessRetries r' /\
  cfgBaseDelay r' = cfgBaseDelay retryConfig /\ cfgMaxDelay r' = cfgMaxDelay retryConfig /\
  cfgBackoffMultiplier r' = cfgBackoffMultiplier retryConfig /\
  (forall A (fn : Z -> settle A), exists tr,
     fst (withRetry fn (defaultRetryOptions r')) = EInvoke 1 :: tr).
Proof.
  split; [split; simpl; lia|].
  apply loadRetryOverride_positive; simpl; lia.
Defined.

End ConfigExtras.

(* ------------------------------------------------------------------------ *)
(** * The logger's history *)

Module LogExtras.
Import AdaptiveTimeout AdaptiveTimeoutFacts Log.

Lemma push_lastn {B} (n : nat) (L : list B) (x : B) :
  (1 <= n)%nat ->
  (let pushed := app (lastn n L) [x] in
   if Nat.ltb n (List.length pushed) then tl pushed else pushed) = lastn n (app L [x]).
Proof.
  intro Hn. cbv zeta. unfold lastn. rewrite !length_app, length_skipn. cbn [List.length].
  destruct (Nat.le_gt_cases n (List.length L)) as [Hle|Hgt].
  - replace (Nat.ltb n (List.length L - (List.length L - n) + 1)) with true
      by (symmetry; apply Nat.ltb_lt; lia).
    replace (List.length L + 1 - n)%nat with (S (List.length L - n)) by lia.
    rewrite <- (skipn_skipn 1 (List.length L - n)).
    rewrite skipn_app. replace (List.length L - n - List.length L)%nat with O by lia.
    rewrite (skipn_O [x]).
    destruct (skipn (List.length L - n) L ++ [x]) eqn:E.
    + apply (f_equal (@List.length B)) in E. rewrite length_app in E. simpl in E. lia.
    + reflexivity.
  - replace (List.length L - n)%nat with O by lia.
    replace (List.length L + 1 - n)%nat with O by lia.
    rewrite skipn_O.
    replace (Nat.ltb n (List.length L - 0 + 1)) with false
      by (symmetry; apply Nat.ltb_ge; lia).
    reflexivity.
Qed.

(** Logger: from an empty history, the history after a run of [log] calls
    holds the last 1000 entries whose level passes [shouldLog], oldest
    first; entries below the configured level are never stored. *)
Theorem logAll_history logLevel es :
  logAll logLevel [] es
  = lastn 1000 (filter (fun e => shouldLog logLevel (level e)) es) /\
  (List.length (logAll logLevel [] es) <= 1000)%nat.
Proof.
  assert (H : logAll logLevel [] es
              = lastn 1000 (filter (fun e => shouldLog logLevel (level e)) es)).
  { induction es as [|e es IH] using rev_ind; [reflexivity|].
    unfold logAll in *. rewrite fold_left_app, IH. cbn [fold_left].
    rewrite filter_app. cbn [filter]. unfold log.
    destruct (shouldLog logLevel (level e)).
    - unfold addToHistory. apply push_lastn. unfold maxHistorySize; lia.
    - rewrite app_nil_r. reflexivity. }
  split; [exact H|]. rewrite H. apply lastn_length_le.
Qed.

Lemma skipn_min {B} (k : nat) (l : list B) : skipn (Nat.min k (List.length l)) l = skipn k l.
Proof.
  destruct (Nat.le_ge_cases k (List.length l)).
  - rewrite Nat.min_l by assumption. reflexivity.
  - rewrite Nat.min_r by assumption. rewrite skipn_all, skipn_all2 by assumption. reflexivity.
Qed.

(** Logger.getHistory: a positive [limit] returns the last [limit] entries
    of the (level-filtered) history, all of them when there are fewer. *)
Theorem getHistory_positive_limit h lvl n :
  0 < n -> getHistory h lvl (Some n) = lastn (Z.to_nat n) (getHistory h lvl None).
Proof.
  intro Hn. unfold getHistory.
  replace (Z.eqb n 0) with false by (symmetry; apply Z.eqb_neq; lia).
  set (F := match lvl with
            | Some l => filter (fun e => LogLevel_eqb (level e) l) h
            | None => h
            end).
  unfold jsSliceFrom, lastn. cbv zeta.
  replace (Z.ltb (- n) 0) with true by (symmetry; apply Z.ltb_lt; lia).
  f_equal. lia.
Qed.

Lemma getHistory_positive_limit_witness :
  let e := fun l m => {| timestamp := "t"%string; level := l; message := m;
                         entryError := None |} in
  let h := [e LInfo "a"; e LError "b"; e LInfo "c"; e LInfo "d"]%string in
  0 < 2 /\ getHistory h (Some LInfo) (Some 2) = [e LInfo "c"; e LInfo "d"]%string.
Proof.
  cbv zeta. split; [lia|].
  rewrite getHistory_positive_limit by lia. reflexivity.
Defined.

(** Logger.getHistory: a negative [limit] is not rejected: [slice(-limit)]
    then drops the first [|limit|] entries instead of keeping the last
    ones. *)
Theorem getHistory_negative_limit h lvl n :
  n < 0 -> getHistory h lvl (Some n) = skipn (Z.to_nat (- n)) (getHistory h lvl None).
Proof.
  intro Hn. unfold getHistory.
  replace (Z.eqb n 0) with false by (symmetry; apply Z.eqb_neq; lia).
  set (F := match lvl with
            | Some l => filter (fun e => LogLevel_eqb (level e) l) h
            | None => h
            end).
  unfold jsSliceFrom. cbv zeta.
  replace (Z.ltb (- n) 0) with false by (symmetry; apply Z.ltb_ge; lia).
  rewrite <- (skipn_min (Z.to_nat (- n)) F). f_equal. lia.
Qed.

Lemma getHistory_negative_limit_witness :
  let e := fun l m => {| timestamp := "t"%string; level := l; message := m;
                         entryError := None |} in
  let h := [e LInfo "a"; e LError "b"; e LInfo "c"; e LInfo "d"]%string in
  -1 < 0 /\ getHistory h None (Some (-1)) = [e LError "b"; e LInfo "c"; e LInfo "d"]%string.
Proof.
  cbv zeta. split; [lia|].
  rewrite getHistory_negative_limit by lia. reflexivity.
Defined.

Lemma bumpCode_sum c : forall acc,
  fold_right Z.add 0 (map snd (bumpCode c acc)) = fold_right Z.add 0 (map snd acc) + 1.
Proof.
  induction acc as [|[k n] acc IH]; [reflexivity|]. simpl.
  destruct (String.eqb k c); simpl; [lia|rewrite IH; lia].
Qed.

Lemma bumpCode_keys c : forall acc k,
  In k (map fst (bumpCode c acc)) <-> c = k \/ In k (map fst acc).
Proof.
  induction acc as [|[k' n] acc IH]; intros k; simpl; [tauto|].
  destruct (String.eqb k' c) eqn:E; simpl.
  - apply String.eqb_eq in E; subst. tauto.
  - rewrite IH. tauto.
Qed.

Lemma bumpCode_nodup c : forall acc,
  NoDup (map fst acc) -> NoDup (map fst (bumpCode c acc)).
Proof.
  induction acc as [|[k n] acc IH]; intro H; simpl; [constructor; [intros []|constructor]|].
  inversion H as [|? ? Hk Hd]; subst.
  destruct (String.eqb k c) eqn:E; simpl; constructor; try assumption.
  - rewrite bumpCode_keys. apply String.eqb_neq in E. intros [Heq|Hin]; [congruence|tauto].
  - apply IH. exact Hd.
Qed.

Lemma bumpCode_count c k : forall acc,
  fold_right Z.add 0 (map snd (filter (fun p => String.eqb (fst p) k) (bumpCode c acc)))
  = fold_right Z.add 0 (map snd (filter (fun p => String.eqb (fst p) k) acc))
    + (if String.eqb c k then 1 else 0).
Proof.
  induction acc as [|[k' n] acc IH]; cbn [bumpCode].
  - cbn [filter fst]. destruct (String.eqb c k); cbn [map snd fold_right]; lia.
  - destruct (String.eqb k' c) eqn:E.
    + apply String.eqb_eq in E. subst k'. cbn [filter fst].
      destruct (String.eqb c k); cbn [map snd fold_right]; lia.
    + cbn [filter fst]. destruct (String.eqb k' k); cbn [map snd fold_right]; rewrite IH; lia.
Qed.

Lemma bumpCode_positive c : forall acc,
  Forall (fun p => 1 <= snd p) acc -> Forall (fun p => 1 <= snd p) (bumpCode c acc).
Proof.
  induction acc as [|[k n] acc IH]; intro H; cbn [bumpCode].
  - constructor; [cbn; lia|constructor].
  - inversion H as [|? ? Hk Hr]; subst. cbn [snd] in Hk.
    destruct (String.eqb k c); constructor; cbn [snd]; try lia; try exact Hr.
    apply IH, Hr.
Qed.

Lemma count_absent k : forall (l : list (string * Z)),
  ~ In k (map fst l) ->
  fold_right Z.add 0 (map snd (filter (fun p => String.eqb (fst p) k) l)) = 0.
Proof.
  induction l as [|[k' n] l IH]; intro H; [reflexivity|].
  cbn [map fst] in H. cbn [filter fst].
  destruct (String.eqb k' k) eqn:E.
  - apply String.eqb_eq in E. exfalso. apply H. left. exact E.
  - apply IH. intro Hin. apply H. right. exact Hin.
Qed.

Lemma count_of_member k n : forall (l : list (string * Z)),
  NoDup (map fst l) -> In (k, n) l ->
  fold_right Z.add 0 (map snd (filter (fun p => String.eqb (fst p) k) l)) = n.
Proof.
  induction l as [|[k' n'] l IH]; intros Hd Hin; [destruct Hin|].
  inversion Hd as [|? ? Hk Hd']; subst.
  destruct Hin as [Heq|Hin].
  - injection Heq as <- <-. cbn [filter fst]. rewrite String.eqb_refl.
    cbn [map snd fold_right]. rewrite count_absent by exact Hk. lia.
  - assert (Hne : k' <> k).
    { intros ->. apply Hk. apply (in_map fst) in Hin. exact Hin. }
    cbn [filter fst]. apply String.eqb_neq in Hne. rewrite Hne. apply IH; assumption.
Qed.

Lemma count_nonneg k : forall (l : list (string * Z)),
  Forall (fun p => 1 <= snd p) l ->
  0 <= fold_right Z.add 0 (map snd (filter (fun p => String.eqb (fst p) k) l)).
Proof.
  induction l as [|[k' m] l IH]; intro Hp; [cbn; lia|].
  inversion Hp as [|? ? Hm Hp']; subst. cbn [snd] in Hm. cbn [filter fst].
  destruct (String.eqb k' k); cbn [map snd fold_right]; specialize (IH Hp'); lia.
Qed.

Lemma count_positive_iff k : forall (l : list (string * Z)),
  Forall (fun p => 1 <= snd p) l ->
  (In k (map fst l) <->
   0 < fold_right Z.add 0 (map snd (filter (fun p => String.eqb (fst p) k) l))).
Proof.
  induction l as [|[k' n] l IH]; intro Hp; [cbn; split; [intros []|lia]|].
  inversion Hp as [|? ? Hn Hp']; subst. cbn [snd] in Hn.
  specialize (IH Hp').
  pose proof (count_nonneg k l Hp') as H0.
  cbn [map fst filter]. destruct (String.eqb k' k) eqn:E.
  - apply String.eqb_eq in E. subst k'. cbn [map snd fold_right]. split; [lia|intros _; left; reflexivity].
  - apply String.eqb_neq in E. rewrite <- IH. split; [intros [H|H]; [congruence|exact H]|right; exact H].
Qed.

(** Logger.getErrorStats: when every logged code is one of [ERROR_CODES],
    [total] counts the error entries; [byCode] has exactly one key per code
    carried by an error entry (all of them from [ERROR_CODES]), and the count
    under each key is the number of error entries with that code; so the
    counts add up to the number of error entries that carry a code, at most
    [total]. *)
Theorem getErrorStats_consistent h :
  Forall (fun e => match entryError e with
                   | Some (Some c) => In c Types.ERROR_CODES
                   | _ => True
                   end) h ->
  let cnt k := Z.of_nat (List.length (filter (fun e => match entryError e with
                                                       | Some (Some c) => String.eqb c k
                                                       | _ => false
                                                       end) (filter isErrorEntry h))) in
  let '(total, byCode) := getErrorStats h in
  total = Z.of_nat (List.length (filter isErrorEntry h)) /\
  NoDup (map fst byCode) /\
  (forall k, In k (map fst byCode) -> In k Types.ERROR_CODES) /\
  (forall k, In k (map fst byCode) <-> 0 < cnt k) /\
  (forall k n, In (k, n) byCode -> n = cnt k) /\
  fold_right Z.add 0 (map snd byCode)
  = Z.of_nat (List.length (filter (fun e => match entryError e with
                                             | Some (Some _) => true
                                             | _ => false
                                             end) (filter isErrorEntry h))) /\
  fold_right Z.add 0 (map snd byCode) <= total.
Proof.
  intro Hcodes. unfold getErrorStats. cbv zeta.
  set (errs := filter isErrorEntry h).
  set (P := fun e => match entryError e with
                     | Some (Some c) => In c Types.ERROR_CODES
                     | _ => True
                     end) in Hcodes.
  assert (Herrs : Forall P errs).
  { apply Forall_forall. intros e He. apply filter_In in He.
    rewrite Forall_forall in Hcodes. apply Hcodes, He. }
  set (step := fun (acc : list (string * Z)) (e : LogEntry) =>
         match entryError e with
         | Some (Some c) => if String.eqb c "" then acc else bumpCode c acc
         | _ => acc
         end).
  set (hasCode := fun e : LogEntry => match entryError e with
                                      | Some (Some _) => true
                                      | _ => false
                                      end).
  set (codeIs := fun k (e : LogEntry) => match entryError e with
                                          | Some (Some c) => String.eqb c k
                                          | _ => false
                                          end).
  assert (Hnonempty : forall e c, P e -> entryError e = Some (Some c) -> String.eqb c "" = false).
  { intros e c Pe Ee. unfold P in Pe. rewrite Ee in Pe.
    apply String.eqb_neq. intro E; subst c. unfold Types.ERROR_CODES in Pe.
    repeat (destruct Pe as [Pe|Pe]; [discriminate Pe|]). destruct Pe. }
  assert (Hinv : forall l acc, Forall P l -> NoDup (map fst acc) ->
     (forall k, In k (map fst acc) -> In k Types.ERROR_CODES) ->
     NoDup (map fst (fold_left step l acc)) /\
     (forall k, In k (map fst (fold_left step l acc)) -> In k Types.ERROR_CODES) /\
     fold_right Z.add 0 (map snd (fold_left step l acc))
     = fold_right Z.add 0 (map snd acc) + Z.of_nat (List.length (filter hasCode l))).
  { induction l as [|e l IH]; intros acc Hl Hacc Hk; [split; [exact Hacc|split; [exact Hk|simpl; lia]]|].
    inversion Hl as [|? ? Pe Hl']; subst.
    cbn [fold_left filter]. unfold hasCode at 1.
    destruct (entryError e) as [[c|]|] eqn:Ee.
    - pose proof (Hnonempty e c Pe Ee) as Hc.
      unfold P in Pe. rewrite Ee in Pe.
      replace (step acc e) with (bumpCode c acc) by (unfold step; rewrite Ee, Hc; reflexivity).
      destruct (IH (bumpCode c acc) Hl' (bumpCode_nodup c acc Hacc)) as [Hn [Hk' Hs]].
      + intros k Hin. apply bumpCode_keys in Hin. destruct Hin as [<-|Hin]; [exact Pe|].
        apply Hk, Hin.
      + split; [exact Hn|split; [exact Hk'|]]. rewrite Hs, bumpCode_sum.
        cbn [List.length]. lia.
    - replace (step acc e) with acc by (unfold step; rewrite Ee; reflexivity).
      apply IH; assumption.
    - replace (step acc e) with acc by (unfold step; rewrite Ee; reflexivity).
      apply IH; assumption. }
  assert (Hcount : forall l acc, Forall P l -> Forall (fun p => 1 <= snd p) acc ->
     Forall (fun p => 1 <= snd p) (fold_left step l acc) /\
     forall k, fold_right Z.add 0 (map snd (filter (fun p => String.eqb (fst p) k)
                                                 (fold_left step l acc)))
               = fold_right Z.add 0 (map snd (filter (fun p => String.eqb (fst p) k) acc))
                 + Z.of_nat (List.length (filter (codeIs k) l))).
  { induction l as [|e l IH]; intros acc Hl Hpos.
    - split; [exact Hpos|]. intro k. cbn [fold_left filter List.length]. lia.
    - inversion Hl as [|? ? Pe Hl']; subst. cbn [fold_left].
      destruct (entryError e) as [[c|]|] eqn:Ee.
      + pose proof (Hnonempty e c Pe Ee) as Hc.
        replace (step acc e) with (bumpCode c acc) by (unfold step; rewrite Ee, Hc; reflexivity).
        destruct (IH (bumpCode c acc) Hl' (bumpCode_positive c acc Hpos)) as [Hp Hk].
        split; [exact Hp|]. intro k. rewrite Hk, bumpCode_count.
        cbn [filter].
        replace (codeIs k e) with (String.eqb c k) by (unfold codeIs; rewrite Ee; reflexivity).
        destruct (String.eqb c k); cbn [List.length]; lia.
      + replace (step acc e) with acc by (unfold step; rewrite Ee; reflexivity).
        destruct (IH acc Hl' Hpos) as [Hp Hk]. split; [exact Hp|].
        intro k. rewrite Hk. cbn [filter].
        replace (codeIs k e) with false by (unfold codeIs; rewrite Ee; reflexivity). reflexivity.
      + replace (step acc e) with acc by (unfold step; rewrite Ee; reflexivity).
        destruct (IH acc Hl' Hpos) as [Hp Hk]. split; [exact Hp|].
        intro k. rewrite Hk. cbn [filter].
        replace (codeIs k e) with false by (unfold codeIs; rewrite Ee; reflexivity). reflexivity. }
  destruct (Hinv errs [] Herrs (NoDup_nil _) (fun k H => match H with end)) as [Hn [Hk Hs]].
  destruct (Hcount errs [] Herrs (Forall_nil _)) as [Hpos Hc].
  split; [reflexivity|]. split; [exact Hn|]. split; [exact Hk|]. split.
  { intro k. rewrite (count_positive_iff k _ Hpos), Hc. cbn [filter map fold_right].
    fold (codeIs k). lia. }
  split.
  { intros k n Hin. rewrite <- (count_of_member k n _ Hn Hin), Hc.
    cbn [filter map fold_right]. fold (codeIs k). lia. }
  split; [exact Hs|].
  rewrite Hs. cbn [map fold_right].
  pose proof (filter_length_le hasCode errs). lia.
Qed.

Lemma getErrorStats_consistent_witness :
  let e := fun l c => {| timestamp := "t"%string; level := l; message := "m"%string;
                         entryError := c |} in
  let h := [e LError (Some (Some "AUTH_ERROR"%string)); e LError (Some None);
            e LWarn (Some (Some "NETWORK_ERROR"%string));
            e LError (Some (Some "AUTH_ERROR"%string)); e LInfo None] in
  Forall (fun e => match entryError e with
                   | Some (Some c) => In c Types.ERROR_CODES
                   | _ => True
                   end) h /\
  getErrorStats h = (3, [("AUTH_ERROR"%string, 2)]) /\
  let cnt k := Z.of_nat (List.length (filter (fun e => match entryError e with
                                                       | Some (Some c) => String.eqb c k
                                                       | _ => false
                                                       end) (filter isErrorEntry h))) in
  let '(total, byCode) := getErrorStats h in
  total = Z.of_nat (List.length (filter isErrorEntry h)) /\
  NoDup (map fst byCode) /\
  (forall k, In k (map fst byCode) -> In k Types.ERROR_CODES) /\
  (forall k, In k (map fst byCode) <-> 0 < cnt k) /\
  (forall k n, In (k, n) byCode -> n = cnt k) /\
  fold_right Z.add 0 (map snd byCode)
  = Z.of_nat (List.length (filter (fun e => match entryError e with
                                             | Some (Some _) => true
                                             | _ => false
                                             end) (filter isErrorEntry h))) /\
  fold_right Z.add 0 (map snd byCode) <= total.
Proof.
  cbv zeta.
  assert (H : Forall (fun e => match entryError e with
                   | Some (Some c) => In c Types.ERROR_CODES
                   | _ => True
                   end)
     [{| timestamp := "t"; level := LError; message := "m"; entryError := Some (Some "AUTH_ERROR") |};
      {| timestamp := "t"; level := LError; message := "m"; entryError := Some None |};
      {| timestamp := "t"; level := LWarn; message := "m"; entryError := Some (Some "NETWORK_ERROR") |};
      {| timestamp := "t"; level := LError; message := "m"; entryError := Some (Some "AUTH_ERROR") |};
      {| timestamp := "t"; level := LInfo; message := "m"; entryError := None |}]%string).
  { repeat constructor; simpl; tauto. }
  split; [exact H|]. split; [vm_compute; reflexivity|].
  exact (getErrorStats_consistent _ H).
Defined.

End LogExtras.
